(** * pfSense configuration synchronisation: validation and transport

    A shallow embedding of [backend/app/pfsense/utils.py].

    - Python exceptions are values of [exn]; a computation that may raise
      returns a [res].
    - The part of the standard [ipaddress] module that the validators call
      on strings ([IPv4Address], [IPv4Network] with [strict=False],
      membership and ordering) is written out over [Z] with bit operations.
    - Logging and the calls on the SSH client are recorded in a trace, in
      program order, by a small writer-and-error monad. *)

From Stdlib Require Import ZArith List String Ascii Bool Lia.
From Stdlib Require Import DecimalString DecimalPos.
Import ListNotations.

Open Scope string_scope.
Open Scope Z_scope.

(** ** Exceptions *)

(** The exception classes that the module raises, catches or lets through,
    with Python's subclass relation. [KeyboardInterrupt] stands for the
    classes that derive from [BaseException] only. *)
Inductive exn_class : Type :=
| BaseException
| KeyboardInterrupt
| Exception
| ValueError
| AddressValueError
| NetmaskValueError
| AttributeError
| OSError
| SSHException
| AuthenticationException
| PfSenseError.

Definition exn_class_eqb (a b : exn_class) : bool :=
  match a, b with
  | BaseException, BaseException
  | KeyboardInterrupt, KeyboardInterrupt
  | Exception, Exception
  | ValueError, ValueError
  | AddressValueError, AddressValueError
  | NetmaskValueError, NetmaskValueError
  | AttributeError, AttributeError
  | OSError, OSError
  | SSHException, SSHException
  | AuthenticationException, AuthenticationException
  | PfSenseError, PfSenseError => true
  | _, _ => false
  end.

(** The direct base class. *)
Definition base (c : exn_class) : option exn_class :=
  match c with
  | BaseException => None
  | KeyboardInterrupt => Some BaseException
  | Exception => Some BaseException
  | ValueError => Some Exception
  | AddressValueError => Some ValueError
  | NetmaskValueError => Some ValueError
  | AttributeError => Some Exception
  | OSError => Some Exception
  | SSHException => Some Exception
  | AuthenticationException => Some SSHException
  | PfSenseError => Some Exception
  end.

Fixpoint issubclass_fuel (n : nat) (c d : exn_class) : bool :=
  exn_class_eqb c d ||
  match n with
  | O => false
  | S n' => match base c with
            | Some b => issubclass_fuel n' b d
            | None => false
            end
  end.

(** The hierarchy is four levels deep. *)
Definition issubclass (c d : exn_class) : bool := issubclass_fuel 4 c d.

Record exn : Type := mkExn { exn_cls : exn_class; exn_msg : string }.

(** [isinstance e d]: what an [except d] clause tests. *)
Definition isinstance (e : exn) (d : exn_class) : bool :=
  issubclass (exn_cls e) d.
Arguments isinstance : simpl never.

Inductive res (A : Type) : Type :=
| Ok (a : A)
| Raise (e : exn).
Arguments Ok {A} a.
Arguments Raise {A} e.

Definition res_bind {A B} (r : res A) (f : A -> res B) : res B :=
  match r with
  | Ok a => f a
  | Raise e => Raise e
  end.

(** ** The [ipaddress] module on strings *)

Module ipaddress.

Definition ALL_ONES : Z := 2 ^ 32 - 1.
Definition max_prefixlen : Z := 32.

(** [s.split(sep)] for a one-character separator. *)
Fixpoint split (sep : ascii) (s : string) : list string :=
  match s with
  | EmptyString => [EmptyString]
  | String c rest =>
      if Ascii.eqb c sep then EmptyString :: split sep rest
      else match split sep rest with
           | hd :: tl => String c hd :: tl
           | [] => [String c EmptyString]
           end
  end.

Fixpoint contains (c : ascii) (s : string) : bool :=
  match s with
  | EmptyString => false
  | String d rest => Ascii.eqb c d || contains c rest
  end.

Definition is_ascii_digit (c : ascii) : bool :=
  let n := Z.of_nat (nat_of_ascii c) in (48 <=? n) && (n <=? 57).

Fixpoint all_digits (s : string) : bool :=
  match s with
  | EmptyString => true
  | String c rest => is_ascii_digit c && all_digits rest
  end.

(** [s.isascii() and s.isdigit()]: [isdigit] is false on the empty
    string. *)
Definition isascii_isdigit (s : string) : bool :=
  match s with
  | EmptyString => false
  | _ => all_digits s
  end.

(** [int(s, 10)] on a string of decimal digits. *)
Fixpoint int_of_digits (acc : Z) (s : string) : Z :=
  match s with
  | EmptyString => acc
  | String c rest =>
      int_of_digits (10 * acc + (Z.of_nat (nat_of_ascii c) - 48)) rest
  end.

Definition address_error (msg : string) : exn := mkExn AddressValueError msg.
Definition netmask_error (msg : string) : exn := mkExn NetmaskValueError msg.
Definition value_error (msg : string) : exn := mkExn ValueError msg.

(** [_parse_octet] *)
Definition _parse_octet (octet_str : string) : res Z :=
  match octet_str with
  | EmptyString => Raise (value_error "Empty octet not permitted")
  | String c0 _ =>
      if negb (isascii_isdigit octet_str) then
        Raise (value_error "Only decimal digits permitted")
      else if (3 <? String.length octet_str)%nat then
        Raise (value_error "At most 3 characters permitted")
      else if negb (String.eqb octet_str "0") && Ascii.eqb c0 "0"%char then
        Raise (value_error "Leading zeros are not permitted")
      else
        let octet_int := int_of_digits 0 octet_str in
        if 255 <? octet_int then
          Raise (value_error "Octet (> 255) not permitted")
        else Ok octet_int
  end.

(** [int.from_bytes(map(_parse_octet, octets), 'big')]: the octets are
    parsed from left to right and the first failure is raised. *)
Fixpoint from_bytes_big (acc : Z) (octets : list string) : res Z :=
  match octets with
  | [] => Ok acc
  | o :: rest =>
      res_bind (_parse_octet o) (fun b => from_bytes_big (256 * acc + b) rest)
  end.

(** [_ip_int_from_string]: a [ValueError] of an octet is re-raised as an
    [AddressValueError]. *)
Definition _ip_int_from_string (ip_str : string) : res Z :=
  match ip_str with
  | EmptyString => Raise (address_error "Address cannot be empty")
  | _ =>
      let octets := split "."%char ip_str in
      if negb (List.length octets =? 4)%nat then
        Raise (address_error "Expected 4 octets")
      else
        match from_bytes_big 0 octets with
        | Ok n => Ok n
        | Raise e => Raise (address_error (exn_msg e))
        end
  end.

(** [IPv4Address(address)] for a string: the address as an integer. *)
Definition IPv4Address (address : string) : res Z :=
  if contains "/"%char address then
    Raise (address_error "Unexpected '/'")
  else _ip_int_from_string address.

(** [_split_optional_netmask] *)
Definition _split_optional_netmask (address : string) : res (list string) :=
  let addr := split "/"%char address in
  if (2 <? List.length addr)%nat then
    Raise (address_error "Only one '/' permitted")
  else Ok addr.

(** [_prefix_from_prefix_string] *)
Definition _prefix_from_prefix_string (prefixlen_str : string) : res Z :=
  if negb (isascii_isdigit prefixlen_str) then
    Raise (netmask_error "is not a valid netmask")
  else
    let prefixlen := int_of_digits 0 prefixlen_str in
    if negb ((0 <=? prefixlen) && (prefixlen <=? max_prefixlen)) then
      Raise (netmask_error "is not a valid netmask")
    else Ok prefixlen.

(** [int.bit_length] on a non-negative integer. *)
Definition bit_length (n : Z) : Z :=
  if n =? 0 then 0 else Z.log2 n + 1.

(** [_count_righthand_zero_bits]: [~number & (number - 1)]. *)
Definition _count_righthand_zero_bits (number bits : Z) : Z :=
  if number =? 0 then bits
  else Z.min bits (bit_length (Z.land (Z.lnot number) (number - 1))).

(** [_prefix_from_ip_int] *)
Definition _prefix_from_ip_int (ip_int : Z) : res Z :=
  let trailing_zeroes := _count_righthand_zero_bits ip_int max_prefixlen in
  let prefixlen := max_prefixlen - trailing_zeroes in
  let leading_ones := Z.shiftr ip_int trailing_zeroes in
  let all_ones := Z.shiftl 1 prefixlen - 1 in
  if negb (leading_ones =? all_ones) then
    Raise (value_error "Netmask pattern mixes zeroes & ones")
  else Ok prefixlen.

(** [_prefix_from_ip_string]: a dotted netmask, or else a hostmask. *)
Definition _prefix_from_ip_string (ip_str : string) : res Z :=
  match _ip_int_from_string ip_str with
  | Raise _ => Raise (netmask_error "is not a valid netmask")
  | Ok ip_int =>
      match _prefix_from_ip_int ip_int with
      | Ok p => Ok p
      | Raise _ =>
          match _prefix_from_ip_int (Z.lxor ip_int ALL_ONES) with
          | Ok p => Ok p
          | Raise _ => Raise (netmask_error "is not a valid netmask")
          end
      end
  end.

(** [_ip_int_from_prefix] *)
Definition _ip_int_from_prefix (prefixlen : Z) : Z :=
  Z.lxor ALL_ONES (Z.shiftr ALL_ONES prefixlen).

(** [_make_netmask] for the string after the slash. *)
Definition _make_netmask (arg : string) : res (Z * Z) :=
  let prefix :=
    match _prefix_from_prefix_string arg with
    | Ok p => Ok p
    | Raise _ => _prefix_from_ip_string arg
    end in
  res_bind prefix (fun p => Ok (_ip_int_from_prefix p, p)).

Record network : Type := mkNetwork {
  network_address : Z;
  netmask : Z;
  prefixlen : Z
}.

(** [IPv4Network(address, strict=False)] for a string: host bits are
    masked off instead of being refused. *)
Definition IPv4Network (address : string) : res network :=
  res_bind (_split_optional_netmask address) (fun parts =>
  let '(addr, mask) :=
    match parts with
    | [a; m] => (a, Some m)
    | a :: _ => (a, None)
    | [] => (EmptyString, None)
    end in
  res_bind (IPv4Address addr) (fun packed =>
  res_bind (match mask with
            | Some m => _make_netmask m
            | None => Ok (_ip_int_from_prefix max_prefixlen, max_prefixlen)
            end) (fun '(nm, p) =>
  Ok (mkNetwork (Z.land packed nm) nm p)))).

(** [other in network] for an address. *)
Definition network_contains (net : network) (other : Z) : bool :=
  Z.land other (netmask net) =? network_address net.

End ipaddress.

(** ** The configuration model

    The fields of [PfSenseConfig] that the module reads. A section or a
    field that the document lacks is [None], as in the Python object. *)

Record DhcpRange : Type := mkDhcpRange {
  from_ : option string;
  to : option string
}.

Record DhcpdLan : Type := mkDhcpdLan { range : option DhcpRange }.

Record Dhcpd : Type := mkDhcpd { dhcpd_lan : option DhcpdLan }.

Record System : Type := mkSystem { hostname : option string }.

Record LanInterface : Type := mkLanInterface {
  ipaddr : option string;
  subnet : option Z
}.

Record Interfaces : Type := mkInterfaces { lan : option LanInterface }.

Record PfSenseConfig : Type := mkPfSenseConfig {
  system : option System;
  interfaces : option Interfaces;
  dhcpd : option Dhcpd
}.

(** ** Calls on the outside world and the trace *)

(** The calls that [connect], [fetch_pfsense_config] and
    [push_pfsense_config] make on paramiko and on the local file system,
    with the arguments that tell them apart. *)
Inductive call : Type :=
| RSAKey_from_private_key_file (path : string)
| connect_pkey (host : string) (port : Z) (username keyfile : string)
| connect_password (host : string) (port : Z) (username password : string)
| exec_command (cmd : string)
| recv_exit_status
| stderr_read
| stdout_read
| open_sftp
| NamedTemporaryFile
| tmpfile_write (text : string)
| tmpfile_flush
| tmpfile_close
| sftp_put (localpath remotepath : string)
| sftp_close
| client_close.

Inductive log_level : Type := ERROR | INFO.

Inductive event : Type :=
| Log (lvl : log_level) (msg : string)
| Enter (fn : string)
| Invoke (c : call).

(** ** The monad: a result or an exception, and the events so far *)

Definition M (A : Type) : Type := (res A * list event)%type.

Definition ret {A} (a : A) : M A := (Ok a, []).

Definition raise {A} (e : exn) : M A := (Raise e, []).

Definition bind {A B} (m : M A) (f : A -> M B) : M B :=
  match m with
  | (Ok a, t) => let (r, t') := f a in (r, (t ++ t')%list)
  | (Raise e, t) => (Raise e, t)
  end.

Definition lift {A} (r : res A) : M A := (r, []).

Definition emit (ev : event) : M unit := (Ok tt, [ev]).

(** [try: body  except ...: handler]. [handler e] is [None] when no
    [except] clause matches [e], which then propagates. *)
Definition try_except {A} (body : M A) (handler : exn -> option (M A)) : M A :=
  match body with
  | (Ok a, t) => (Ok a, t)
  | (Raise e, t) =>
      match handler e with
      | Some h => let (r, t') := h in (r, (t ++ t')%list)
      | None => (Raise e, t)
      end
  end.

Definition result {A} (m : M A) : res A := fst m.
Definition trace {A} (m : M A) : list event := snd m.

Declare Scope monad_scope.
Delimit Scope monad_scope with monad.
Notation "x <- m ;; k" := (bind m (fun x => k))
  (at level 61, m at next level, right associativity) : monad_scope.
Notation "m ;; k" := (bind m (fun _ => k))
  (at level 61, right associativity) : monad_scope.
Open Scope monad_scope.

(** [logging.error] and [logging.exception] both log at level ERROR. *)
Definition logging_error (msg : string) : M unit := emit (Log ERROR msg).
Definition logging_exception (msg : string) : M unit := emit (Log ERROR msg).
Definition logging_info (msg : string) : M unit := emit (Log INFO msg).

(** ** Python values of the configuration *)

(** Truth value of an optional string: [None] and [""] are false. *)
Definition truthy (s : option string) : bool :=
  match s with
  | Some (String _ _) => true
  | _ => false
  end.

(** [str(x)] as used by the constructors of [ipaddress] and by f-strings. *)
Definition str (s : option string) : string :=
  match s with
  | Some v => v
  | None => "None"
  end.

Definition str_int (z : option Z) : string :=
  match z with
  | Some v => NilZero.string_of_int (Z.to_int v)
  | None => "None"
  end.

(** Attribute access on an object that may be [None]. *)
Definition getattr {A B} (o : option A) (field : A -> B) (name : string) : M B :=
  match o with
  | Some v => ret (field v)
  | None =>
      raise (mkExn AttributeError
               ("'NoneType' object has no attribute '" ++ name ++ "'"))
  end.

(** [config.dhcpd and config.dhcpd.lan and config.dhcpd.lan.range]: the
    range when the three are present, else a false value. *)
Definition dhcpd_lan_range (config : PfSenseConfig) : option DhcpRange :=
  match dhcpd config with
  | Some d => match dhcpd_lan d with
              | Some l => range l
              | None => None
              end
  | None => None
  end.

(** [config.interfaces.lan.<field>] *)
Definition interfaces_lan_attr {B} (config : PfSenseConfig)
    (field : LanInterface -> B) (name : string) : M B :=
  l <- getattr (interfaces config) lan "lan" ;;
  getattr l field name.

(** ** The semantic validator *)

(** The messages of the validator's log lines. *)
Definition range_error : string :=
  "[!] DHCP range 'from' address must be less than 'to' address.".
Definition invalid_range_error : string :=
  "[!] Invalid DHCP range addresses: %r".
Definition subnet_error : string :=
  "[!] DHCP range must be within the LAN subnet.".
Definition hostname_error : string := "[!] Hostname is required.".
Definition lan_ipaddr_error : string :=
  "[!] LAN interface IP address is required.".


(** What the body of a [try] hands on: [Some b] when it executed
    [return b], [None] when control falls through to the statement after
    the [try]. *)
Definition returned (b : bool) : M (option bool) := ret (Some b).
Definition fall_through : M (option bool) := ret None.

Definition _validate_dhcp_range_consistency (config : PfSenseConfig) : M bool :=
  emit (Enter "_validate_dhcp_range_consistency") ;;
  match dhcpd_lan_range config with
  | None => ret true
  | Some dhcp_range =>
      if negb (truthy (from_ dhcp_range) && truthy (to dhcp_range)) then
        ret true
      else
        r <- try_except
               (from_ip <- lift (ipaddress.IPv4Address (str (from_ dhcp_range))) ;;
                to_ip <- lift (ipaddress.IPv4Address (str (to dhcp_range))) ;;
                if from_ip >=? to_ip then
                  logging_error range_error ;;
                  returned false
                else fall_through)
               (fun e =>
                  if isinstance e ValueError then
                    Some (logging_exception invalid_range_error ;;
                          returned false)
                  else None) ;;
        match r with
        | Some b => ret b
        | None => ret true
        end
  end.

Definition _validate_dhcp_subnet_consistency (config : PfSenseConfig) : M bool :=
  emit (Enter "_validate_dhcp_subnet_consistency") ;;
  r <- try_except
         (lan_ipaddr <- interfaces_lan_attr config ipaddr "ipaddr" ;;
          lan_prefix <- interfaces_lan_attr config subnet "subnet" ;;
          let lan_subnet := str lan_ipaddr ++ "/" ++ str_int lan_prefix in
          lan_network <- lift (ipaddress.IPv4Network lan_subnet) ;;
          match dhcpd_lan_range config with
          | None => returned true
          | Some dhcp_range =>
              if negb (truthy (from_ dhcp_range) && truthy (to dhcp_range)) then
                returned true
              else
                try_except
                  (from_ip <- lift (ipaddress.IPv4Address (str (from_ dhcp_range))) ;;
                   to_ip <- lift (ipaddress.IPv4Address (str (to dhcp_range))) ;;
                   if negb (ipaddress.network_contains lan_network from_ip)
                      || negb (ipaddress.network_contains lan_network to_ip) then
                     logging_error subnet_error ;;
                     returned false
                   else fall_through)
                  (fun e =>
                     if isinstance e ValueError then Some fall_through else None)
          end)
         (fun e => if isinstance e ValueError then Some fall_through else None) ;;
  match r with
  | Some b => ret b
  | None => ret true
  end.

Definition validate_pfsense_config (config : PfSenseConfig) : M bool :=
  try_except
    (host <- getattr (system config) hostname "hostname" ;;
     if negb (truthy host) then
       logging_error hostname_error ;;
       ret false
     else
       lan_ipaddr <- interfaces_lan_attr config ipaddr "ipaddr" ;;
       if negb (truthy lan_ipaddr) then
         logging_error lan_ipaddr_error ;;
         ret false
       else
         range_ok <- _validate_dhcp_range_consistency config ;;
         if negb range_ok then ret false
         else
           subnet_ok <- _validate_dhcp_subnet_consistency config ;;
           if negb subnet_ok then ret false
           else
             logging_info "[+] pfSense configuration validation passed." ;;
             ret true)
    (fun e =>
       if isinstance e Exception then
         Some (logging_exception
                 ("[!] Configuration validation failed: " ++ exn_msg e) ;;
               ret false)
       else None).

(** ** The transport session and the orchestrator *)

(** Process-wide settings read by the module ([app.core.config.settings]
    and [.config.settings]); their values are not part of this file. *)
Record Settings : Type := mkSettings {
  PFSENSE_KEY_FILE : option string;
  PFSENSE_HOST : string;
  PFSENSE_PORT : Z;
  PFSENSE_USERNAME : string;
  PFSENSE_PASSWORD : string;
  CONFIG_DIR : string;
  BACKUP_CONFIG_DIR : string
}.

(** The outside world as the module sees it: whether each call returns or
    raises, and the values read back from the device and the file system.
    [stdout_text] is the output stream already decoded; a decoding error
    is an exception of the read. *)
Record World : Type := mkWorld {
  run : call -> option exn;
  exit_status : Z;
  stdout_text : string;
  tmpfile_name : string
}.

Section Orchestrator.

Variable settings : Settings.
Variable world : World.

(** The codec: [xmltodict.unparse] of the dumped model, and the model
    built from the [pfsense] entry of [xmltodict.parse]. Library code
    that this module calls and does not define. *)
Variable encode : PfSenseConfig -> res string.
Variable decode : string -> res PfSenseConfig.

(** A call is recorded when it is made, whether it returns or raises. *)
Definition invoke (c : call) : M unit :=
  emit (Invoke c) ;;
  match run world c with
  | None => ret tt
  | Some e => raise e
  end.

(** [with ... as f: body]: the exit action runs on both ways out of the
    body; an exception of the exit action replaces the body's. *)
Definition with_exit {A} (body : M A) (exit : M unit) : M A :=
  match body with
  | (Ok a, t) =>
      let (r, t') := exit in
      (match r with Ok _ => Ok a | Raise e' => Raise e' end, (t ++ t')%list)
  | (Raise e, t) =>
      let (r, t') := exit in
      (match r with Ok _ => Raise e | Raise e' => Raise e' end, (t ++ t')%list)
  end.

Definition connect : M unit :=
  try_except
    ((if truthy (PFSENSE_KEY_FILE settings) then
        invoke (RSAKey_from_private_key_file (str (PFSENSE_KEY_FILE settings))) ;;
        invoke (connect_pkey (PFSENSE_HOST settings) (PFSENSE_PORT settings)
                  (PFSENSE_USERNAME settings) (str (PFSENSE_KEY_FILE settings)))
      else ret tt) ;;
     invoke (connect_password (PFSENSE_HOST settings) (PFSENSE_PORT settings)
               (PFSENSE_USERNAME settings) (PFSENSE_PASSWORD settings)))
    (fun e =>
       if isinstance e AuthenticationException then
         Some (logging_error
                 "Authentication failed when connecting to pfSense: %s" ;;
               raise (mkExn PfSenseError "Authentication failed"))
       else if isinstance e SSHException then
         Some (logging_error "SSH connection failed: %s" ;;
               raise (mkExn PfSenseError "SSH connection failed"))
       else None).

Definition fetch_pfsense_config : M PfSenseConfig :=
  connect ;;
  invoke (exec_command ("cat " ++ CONFIG_DIR settings)) ;;
  invoke recv_exit_status ;;
  if negb (exit_status world =? 0) then
    invoke stderr_read ;;
    invoke client_close ;;
    raise (mkExn PfSenseError "Failed to fetch pfSense configuration.")
  else
    invoke stdout_read ;;
    invoke client_close ;;
    lift (decode (stdout_text world)).

Definition push_pfsense_config (config : PfSenseConfig) : M Z :=
  let remote_config := CONFIG_DIR settings in
  let backup_config := BACKUP_CONFIG_DIR settings in
  connect ;;
  invoke (exec_command ("cp " ++ remote_config ++ " " ++ backup_config)) ;;
  invoke open_sftp ;;
  config_xml <- lift (encode config) ;;
  invoke NamedTemporaryFile ;;
  local_path <- with_exit
                  (invoke (tmpfile_write config_xml) ;;
                   invoke tmpfile_flush ;;
                   ret (tmpfile_name world))
                  (invoke tmpfile_close) ;;
  invoke (sftp_put local_path "/tmp/config.xml") ;;
  invoke sftp_close ;;
  invoke (exec_command ("mv /tmp/config.xml " ++ remote_config)) ;;
  invoke (exec_command "rm /tmp/config.cache") ;;
  invoke (exec_command "/etc/rc.reload_all") ;;
  invoke client_close ;;
  ret 1.

End Orchestrator.

(** ** Observations on a configuration and on a trace *)

(** The LAN interface when [config.interfaces.lan] is there. *)
Definition lan_of (config : PfSenseConfig) : option LanInterface :=
  match interfaces config with
  | Some i => lan i
  | None => None
  end.

(** Whether [validate_pfsense_config] gets past its first two tests: the
    hostname and the LAN address are both there and not empty. *)
Definition reaches_dhcp_checks (config : PfSenseConfig) : bool :=
  match system config with
  | Some s => truthy (hostname s)
  | None => false
  end
  && match lan_of config with
     | Some l => truthy (ipaddr l)
     | None => false
     end.

(** Membership in the CIDR network [base/prefix], in the words of the
    specification: the address lies in the block of [2 ^ (32 - prefix)]
    addresses that holds the base. *)
Definition in_cidr (base prefix ip : Z) : Prop :=
  ip / 2 ^ (32 - prefix) = base / 2 ^ (32 - prefix).

(** The string that the subnet check hands to [IPv4Network] for a LAN
    interface. *)
Definition lan_subnet_of (l : LanInterface) : string :=
  str (ipaddr l) ++ "/" ++ str_int (subnet l).


Definition is_close (ev : event) : bool :=
  match ev with
  | Invoke client_close => true
  | _ => false
  end.

(** How many times the session's [close] was invoked. *)
Definition closes (t : list event) : nat := List.length (filter is_close t).

(** The steps of a push that act on the device: remote commands and the
    upload. *)
Definition is_remote_effect (ev : event) : bool :=
  match ev with
  | Invoke (exec_command _) => true
  | Invoke (sftp_put _ _) => true
  | _ => false
  end.

Definition remote_effects (t : list event) : list event :=
  filter is_remote_effect t.


Definition logged (msg : string) (t : list event) : bool :=
  existsb (fun ev => match ev with
                     | Log _ m => String.eqb msg m
                     | _ => false
                     end) t.



(** Whether a check returned [True]. *)
Definition passes (m : M bool) : bool :=
  match result m with
  | Ok b => b
  | Raise _ => false
  end.

(** The calls of a trace other than [close]. *)
Definition before_close (t : list event) : list event :=
  filter (fun ev => negb (is_close ev)) t.

(** The call returns in this world. *)
Definition returns (world : World) (c : call) : bool :=
  match run world c with
  | None => true
  | Some _ => false
  end.

(** No call recorded in the trace raised. *)
Definition no_call_raised (world : World) (t : list event) : bool :=
  forallb (fun ev => match ev with
                     | Invoke c => returns world c
                     | _ => true
                     end) t.

(** A computation after the events [t]. *)
Definition prefix {A} (t : list event) (m : M A) : M A :=
  (result m, (t ++ trace m)%list).

Definition is_ok {A} (r : res A) : bool :=
  match r with
  | Ok _ => true
  | Raise _ => false
  end.

(** A step that neither closes the session nor hides a failure: its
    calls all returned exactly when it returned. *)
Definition quiet (world : World) {A} (m : M A) : Prop :=
  closes (trace m) = 0%nat
  /\ no_call_raised world (before_close (trace m)) = is_ok (result m).

(** [close] was invoked once if every other call returned and the encoding
    succeeded ([enc_ok]), and not at all otherwise. *)
Definition closed_iff_clean (world : World) {A} (enc_ok : bool) (m : M A) : Prop :=
  closes (trace m)
  = if no_call_raised world (before_close (trace m)) && enc_ok
    then 1%nat else 0%nat.

(** The calls of [connect] when each of them returns. *)
Definition connect_calls (settings : Settings) : list event :=
  ((if truthy (PFSENSE_KEY_FILE settings) then
      [Invoke (RSAKey_from_private_key_file (str (PFSENSE_KEY_FILE settings)));
       Invoke (connect_pkey (PFSENSE_HOST settings) (PFSENSE_PORT settings)
                 (PFSENSE_USERNAME settings) (str (PFSENSE_KEY_FILE settings)))]
    else [])
   ++ [Invoke (connect_password (PFSENSE_HOST settings) (PFSENSE_PORT settings)
                 (PFSENSE_USERNAME settings) (PFSENSE_PASSWORD settings))])%list.

(** The remote steps of a push, in the order of the program. *)
Definition push_remote_effects (settings : Settings) (local_path : string)
    : list event :=
  [Invoke (exec_command
             ("cp " ++ CONFIG_DIR settings ++ " " ++ BACKUP_CONFIG_DIR settings));
   Invoke (sftp_put local_path "/tmp/config.xml");
   Invoke (exec_command ("mv /tmp/config.xml " ++ CONFIG_DIR settings));
   Invoke (exec_command "rm /tmp/config.cache");
   Invoke (exec_command "/etc/rc.reload_all")].

(** Every call of a successful push after [connect]. *)
Definition push_calls (settings : Settings) (world : World) (config_xml : string)
    : list event :=
  [Invoke (exec_command
             ("cp " ++ CONFIG_DIR settings ++ " " ++ BACKUP_CONFIG_DIR settings));
   Invoke open_sftp;
   Invoke NamedTemporaryFile;
   Invoke (tmpfile_write config_xml);
   Invoke tmpfile_flush;
   Invoke tmpfile_close;
   Invoke (sftp_put (tmpfile_name world) "/tmp/config.xml");
   Invoke sftp_close;
   Invoke (exec_command ("mv /tmp/config.xml " ++ CONFIG_DIR settings));
   Invoke (exec_command "rm /tmp/config.cache");
   Invoke (exec_command "/etc/rc.reload_all");
   Invoke client_close].

(** ** Sample configurations *)

(** A document with every section present. *)
Definition lan_config (host ip : string) (prefix : Z) (range_from range_to : string)
    : PfSenseConfig :=
  mkPfSenseConfig
    (Some (mkSystem (Some host)))
    (Some (mkInterfaces (Some (mkLanInterface (Some ip) (Some prefix)))))
    (Some (mkDhcpd (Some (mkDhcpdLan
       (Some (mkDhcpRange (Some range_from) (Some range_to))))))).

Definition ordered_range_config : PfSenseConfig :=
  lan_config "fw" "192.168.1.1" 24 "192.168.1.50" "192.168.1.100".

Definition reversed_range_config : PfSenseConfig :=
  lan_config "fw" "192.168.1.1" 24 "192.168.1.100" "192.168.1.50".

Definition outside_subnet_config : PfSenseConfig :=
  lan_config "fw" "192.168.1.1" 24 "192.168.1.50" "192.168.2.10".

Definition sentinel_from_config : PfSenseConfig :=
  lan_config "fw" "192.168.1.1" 24 "dhcp" "192.168.1.100".

Definition no_hostname_config : PfSenseConfig :=
  lan_config "" "192.168.1.1" 24 "192.168.1.100" "192.168.1.50".


Definition empty_config : PfSenseConfig := mkPfSenseConfig None None None.

(** ** Further observations and samples *)

Definition passed_message : string :=
  "[+] pfSense configuration validation passed.".

Definition is_error_line (ev : event) : bool :=
  match ev with
  | Log ERROR _ => true
  | _ => false
  end.

(** The message was logged at level INFO. *)
Definition logged_info (msg : string) (t : list event) : bool :=
  existsb (fun ev => match ev with
                     | Log INFO m => String.eqb msg m
                     | _ => false
                     end) t.

(** The number of lines logged at level ERROR. *)
Definition error_lines (t : list event) : nat :=
  List.length (filter is_error_line t).

(** A LAN interface that takes its address by DHCP, and no DHCP server
    section. *)
Definition dhcp_client_config : PfSenseConfig :=
  mkPfSenseConfig
    (Some (mkSystem (Some "fw")))
    (Some (mkInterfaces (Some (mkLanInterface (Some "dhcp") (Some 24)))))
    None.

Definition sentinel_lan_config : PfSenseConfig :=
  lan_config "fw" "dhcp" 24 "10.0.0.5" "10.0.0.9".

Definition host_prefix_config : PfSenseConfig :=
  lan_config "fw" "192.168.1.1" 32 "192.168.1.1" "192.168.1.2".

Definition zero_prefix_config : PfSenseConfig :=
  lan_config "fw" "192.168.1.1" 0 "10.0.0.5" "172.16.0.9".

Definition long_prefix_config : PfSenseConfig :=
  lan_config "fw" "192.168.1.1" 33 "10.0.0.5" "172.16.0.9".

Definition no_lan_config : PfSenseConfig :=
  mkPfSenseConfig (Some (mkSystem (Some "fw"))) (Some (mkInterfaces None)) None.

(** ** Loading a configuration from a file *)



(** ** Further observations on the transport *)

(** The calls of a fetch after [connect], when the remote command exits
    with status 0, and when it does not. *)
Definition fetch_calls (settings : Settings) : list event :=
  [Invoke (exec_command ("cat " ++ CONFIG_DIR settings));
   Invoke recv_exit_status;
   Invoke stdout_read;
   Invoke client_close].

Definition fetch_failure_calls (settings : Settings) : list event :=
  [Invoke (exec_command ("cat " ++ CONFIG_DIR settings));
   Invoke recv_exit_status;
   Invoke stderr_read;
   Invoke client_close].

(** The calls of a push up to the encoding of the document. *)
Definition push_calls_before_encoding (settings : Settings) : list event :=
  [Invoke (exec_command
             ("cp " ++ CONFIG_DIR settings ++ " " ++ BACKUP_CONFIG_DIR settings));
   Invoke open_sftp].

Definition invoked (c : call -> bool) (t : list event) : bool :=
  existsb (fun ev => match ev with
                     | Invoke k => c k
                     | _ => false
                     end) t.

Definition is_stdout_read (c : call) : bool :=
  match c with
  | stdout_read => true
  | _ => false
  end.

Definition is_recv_exit_status (c : call) : bool :=
  match c with
  | recv_exit_status => true
  | _ => false
  end.

(** The computation makes no call of the kind [c]. *)
Definition never (c : call -> bool) {A} (m : M A) : Prop :=
  invoked c (trace m) = false.

(** The computation does not act on the device. *)
Definition silent {A} (m : M A) : Prop := remote_effects (trace m) = [].

(** The computation has acted on the device by the first steps of [steps],
    in order, and by nothing else. *)
Definition effects_within (steps : list event) {A} (m : M A) : Prop :=
  exists k : nat, remote_effects (trace m) = firstn k steps.

(** The computation has acted on the device by the first steps of [steps],
    in order, and by nothing else; and each of them but the last had
    returned before the next was attempted. *)
Definition effects_in_order (world : World) (steps : list event) {A} (m : M A)
    : Prop :=
  exists k : nat,
    remote_effects (trace m) = firstn k steps
    /\ no_call_raised world (firstn (pred k) steps) = true.

(** What the [except] clauses of [connect] make of an exception. *)
Definition connect_error (e : exn) : exn :=
  if isinstance e AuthenticationException then
    mkExn PfSenseError "Authentication failed"
  else if isinstance e SSHException then
    mkExn PfSenseError "SSH connection failed"
  else e.


(** The document cannot be serialised. *)
Definition failing_encode (config : PfSenseConfig) : res string :=
  Raise (mkExn ValueError "cannot serialise").

(** The password is refused. *)
Definition world_password_refused : World :=
  mkWorld (fun c => match c with
                    | connect_password _ _ _ _ =>
                        Some (mkExn AuthenticationException "Authentication failed.")
                    | _ => None
                    end) 0 "<pfsense></pfsense>" "/tmp/tmpa1b2c3".

(** ** Sample settings and worlds *)

Definition key_settings : Settings :=
  mkSettings (Some "/root/.ssh/id_rsa") "192.168.1.1" 22 "admin" "pfsense"
    "/conf/config.xml" "/conf/config.xml.bak".

Definition password_settings : Settings :=
  mkSettings None "192.168.1.1" 22 "admin" "pfsense"
    "/conf/config.xml" "/conf/config.xml.bak".

(** Every call returns and the remote command exits with status 0. *)
Definition world_ok : World :=
  mkWorld (fun _ => None) 0 "<pfsense></pfsense>" "/tmp/tmpa1b2c3".

(** The server refuses the key; it would accept the password. *)
Definition world_key_refused : World :=
  mkWorld (fun c => match c with
                    | connect_pkey _ _ _ _ =>
                        Some (mkExn AuthenticationException "Authentication failed.")
                    | _ => None
                    end) 0 "<pfsense></pfsense>" "/tmp/tmpa1b2c3".

(** The upload fails. *)
Definition world_upload_fails : World :=
  mkWorld (fun c => match c with
                    | sftp_put _ _ => Some (mkExn OSError "Failure")
                    | _ => None
                    end) 0 "<pfsense></pfsense>" "/tmp/tmpa1b2c3".

(** The channel for the reload command cannot be opened. *)
Definition world_reload_fails : World :=
  mkWorld (fun c => match c with
                    | exec_command cmd =>
                        if String.eqb cmd "/etc/rc.reload_all" then
                          Some (mkExn SSHException "SSH session not active")
                        else None
                    | _ => None
                    end) 0 "<pfsense></pfsense>" "/tmp/tmpa1b2c3".

(** The session drops before the remote command of a fetch is run. *)
Definition world_exec_fails : World :=
  mkWorld (fun c => match c with
                    | exec_command _ =>
                        Some (mkExn SSHException "SSH session not active")
                    | _ => None
                    end) 0 "" "/tmp/tmpa1b2c3".

(** The remote [cat] exits with status 1. *)
Definition world_cat_fails : World :=
  mkWorld (fun _ => None) 1 "" "/tmp/tmpa1b2c3".

(** Stand-ins for the library codec in the examples. *)
Definition sample_encode (config : PfSenseConfig) : res string :=
  Ok "<pfsense></pfsense>".
Definition sample_decode (xml : string) : res PfSenseConfig :=
  Ok empty_config.

(** * Properties *)

(** ** Parsing of addresses *)

Section AddressFacts.

Import ipaddress.

Lemma isinstance_address_error msg :
  isinstance (address_error msg) ValueError = true.
Proof. reflexivity. Qed.

Lemma isinstance_netmask_error msg :
  isinstance (netmask_error msg) ValueError = true.
Proof. reflexivity. Qed.

(** Every failure of the address parser is an [AddressValueError]. *)
Lemma _ip_int_from_string_raises s e :
  _ip_int_from_string s = Raise e -> exn_cls e = AddressValueError.
Proof.
  unfold _ip_int_from_string.
  destruct s as [|c s']; [intros [= <-]; reflexivity|].
  destruct (negb _); [intros [= <-]; reflexivity|].
  destruct (from_bytes_big 0 _); [discriminate|].
  intros [= <-]; reflexivity.
Qed.

Lemma IPv4Address_raises s e :
  IPv4Address s = Raise e -> exn_cls e = AddressValueError.
Proof.
  unfold IPv4Address.
  destruct (contains _ s); [intros [= <-]; reflexivity|].
  apply _ip_int_from_string_raises.
Qed.

Lemma IPv4Address_raises_ValueError s e :
  IPv4Address s = Raise e -> isinstance e ValueError = true.
Proof.
  intros H. apply IPv4Address_raises in H.
  unfold isinstance. rewrite H. reflexivity.
Qed.

Lemma IPv4Address_raises_Exception s e :
  IPv4Address s = Raise e -> isinstance e Exception = true.
Proof.
  intros H. apply IPv4Address_raises in H.
  unfold isinstance. rewrite H. reflexivity.
Qed.

(** A parseable address is not the empty string and has no slash. *)
Lemma IPv4Address_Ok_truthy s a :
  IPv4Address s = Ok a -> truthy (Some s) = true.
Proof.
  unfold IPv4Address. destruct s; [|reflexivity].
  cbn. discriminate.
Qed.

Lemma IPv4Address_Ok_no_slash s a :
  IPv4Address s = Ok a -> contains "/"%char s = false.
Proof.
  unfold IPv4Address. destruct (contains _ s); [discriminate|reflexivity].
Qed.

Lemma _prefix_from_ip_string_raises s e :
  _prefix_from_ip_string s = Raise e -> isinstance e ValueError = true.
Proof.
  unfold _prefix_from_ip_string.
  destruct (_ip_int_from_string s) as [n|]; [|intros [= <-]; reflexivity].
  destruct (_prefix_from_ip_int n); [discriminate|].
  destruct (_prefix_from_ip_int _); [discriminate|].
  intros [= <-]; reflexivity.
Qed.

Lemma _make_netmask_raises s e :
  _make_netmask s = Raise e -> isinstance e ValueError = true.
Proof.
  unfold _make_netmask, res_bind.
  destruct (_prefix_from_prefix_string s); [discriminate|].
  destruct (_prefix_from_ip_string s) eqn:H; [discriminate|].
  intros [= <-]. eapply _prefix_from_ip_string_raises; eauto.
Qed.

(** Every failure of the network constructor is a [ValueError]. *)
Lemma IPv4Network_raises_ValueError s e :
  IPv4Network s = Raise e -> isinstance e ValueError = true.
Proof.
  unfold IPv4Network, _split_optional_netmask, res_bind.
  destruct (2 <? _)%nat; [intros [= <-]; reflexivity|].
  set (p := match split "/" s with
            | [a; m] => (a, Some m)
            | a :: _ => (a, None)
            | [] => (EmptyString, None)
            end).
  destruct p as [addr mask].
  destruct (IPv4Address addr) eqn:Ha.
  2:{ intros [= <-]. eapply IPv4Address_raises_ValueError; eauto. }
  destruct mask as [m|].
  - destruct (_make_netmask m) as [[nm q]|e'] eqn:Hm; [discriminate|].
    intros [= <-]. eapply _make_netmask_raises; eauto.
  - discriminate.
Qed.

End AddressFacts.

(** ** Laws of the monad *)

Lemma bind_ret {A B} (a : A) (f : A -> M B) : bind (ret a) f = f a.
Proof. unfold bind, ret. destruct (f a); reflexivity. Qed.

Lemma bind_lift_Ok {A B} (a : A) (f : A -> M B) : bind (lift (Ok a)) f = f a.
Proof. exact (bind_ret a f). Qed.

Lemma bind_lift_Raise {A B} (e : exn) (f : A -> M B) :
  bind (lift (Raise e)) f = raise e.
Proof. reflexivity. Qed.

Lemma bind_raise {A B} (e : exn) (f : A -> M B) : bind (raise e) f = raise e.
Proof. reflexivity. Qed.

Lemma bind_emit {B} (ev : event) (f : unit -> M B) :
  bind (emit ev) f = (result (f tt), ev :: trace (f tt)).
Proof. unfold bind, emit, result, trace. destruct (f tt); reflexivity. Qed.

Lemma result_bind_emit {B} (ev : event) (f : unit -> M B) :
  result (bind (emit ev) f) = result (f tt).
Proof. rewrite bind_emit. reflexivity. Qed.

Ltac monad_simpl :=
  repeat (rewrite ?bind_ret, ?bind_lift_Ok, ?bind_lift_Raise, ?bind_raise;
          cbv beta).

(** ** The two DHCP checks, case by case *)

Section Checks.

Import ipaddress.

Variable config : PfSenseConfig.

(** The range check when no range is configured. *)
Lemma range_check_no_range :
  dhcpd_lan_range config = None ->
  _validate_dhcp_range_consistency config
  = (Ok true, [Enter "_validate_dhcp_range_consistency"]).
Proof.
  intros H. unfold _validate_dhcp_range_consistency. rewrite H. reflexivity.
Qed.

(** The range check when an endpoint is missing or empty. *)
Lemma range_check_endpoint_absent r :
  dhcpd_lan_range config = Some r ->
  truthy (from_ r) && truthy (to r) = false ->
  _validate_dhcp_range_consistency config
  = (Ok true, [Enter "_validate_dhcp_range_consistency"]).
Proof.
  intros H Ht. unfold _validate_dhcp_range_consistency. rewrite H, Ht.
  reflexivity.
Qed.

(** The range check on two parseable endpoints. *)
Lemma range_check_parsed r f t a b :
  dhcpd_lan_range config = Some r ->
  from_ r = Some f -> to r = Some t ->
  IPv4Address f = Ok a -> IPv4Address t = Ok b ->
  _validate_dhcp_range_consistency config
  = (Ok (a <? b),
     Enter "_validate_dhcp_range_consistency"
       :: (if a <? b then [] else [Log ERROR range_error])).
Proof.
  intros H Hf Ht Ha Hb. unfold _validate_dhcp_range_consistency.
  rewrite H, Hf, Ht.
  rewrite (IPv4Address_Ok_truthy _ _ Ha), (IPv4Address_Ok_truthy _ _ Hb).
  cbn [andb negb str]. rewrite Ha, Hb.
  monad_simpl. rewrite Z.geb_leb, Z.leb_antisym.
  destruct (a <? b); reflexivity.
Qed.

(** The range check when both endpoints are present and one of them does
    not parse. *)
Lemma range_check_unparseable r :
  dhcpd_lan_range config = Some r ->
  truthy (from_ r) && truthy (to r) = true ->
  (exists e, IPv4Address (str (from_ r)) = Raise e) \/
  (exists e, IPv4Address (str (to r)) = Raise e) ->
  _validate_dhcp_range_consistency config
  = (Ok false,
     [Enter "_validate_dhcp_range_consistency"; Log ERROR invalid_range_error]).
Proof.
  intros H Ht Hbad. unfold _validate_dhcp_range_consistency.
  rewrite H, Ht. cbn [negb].
  destruct (IPv4Address (str (from_ r))) as [a|e] eqn:Ha.
  - destruct Hbad as [[e He]|[e He]]; [discriminate|].
    rewrite He. cbn.
    rewrite (IPv4Address_raises_ValueError _ _ He). reflexivity.
  - cbn. rewrite (IPv4Address_raises_ValueError _ _ Ha). reflexivity.
Qed.

Lemma interfaces_lan_attr_Some {B} l (field : LanInterface -> B) name :
  lan_of config = Some l -> interfaces_lan_attr config field name = ret (field l).
Proof.
  unfold lan_of, interfaces_lan_attr. intros H.
  destruct (interfaces config) as [i|]; [|discriminate].
  cbn [getattr]. rewrite bind_ret, H. reflexivity.
Qed.

Lemma interfaces_lan_attr_None {B} (field : LanInterface -> B) name :
  lan_of config = None ->
  exists e, interfaces_lan_attr config field name = raise e
            /\ exn_cls e = AttributeError.
Proof.
  unfold lan_of, interfaces_lan_attr. intros H.
  destruct (interfaces config) as [i|].
  - cbn [getattr]. rewrite bind_ret, H. eexists; split; reflexivity.
  - eexists; split; reflexivity.
Qed.

(** Without a LAN interface the subnet check raises [AttributeError]. *)
Lemma subnet_check_no_lan :
  lan_of config = None ->
  exists e, _validate_dhcp_subnet_consistency config
            = (Raise e, [Enter "_validate_dhcp_subnet_consistency"])
            /\ exn_cls e = AttributeError.
Proof.
  intros H. unfold _validate_dhcp_subnet_consistency.
  destruct (interfaces_lan_attr_None ipaddr "ipaddr" H) as (e & He & Hc).
  exists e. split; [|exact Hc].
  rewrite He. monad_simpl. unfold try_except, raise, isinstance.
  rewrite Hc. reflexivity.
Qed.

(** When the LAN address and prefix do not form a network, the subnet
    check is skipped. *)
Lemma subnet_check_no_network l e :
  lan_of config = Some l ->
  IPv4Network (lan_subnet_of l) = Raise e ->
  _validate_dhcp_subnet_consistency config
  = (Ok true, [Enter "_validate_dhcp_subnet_consistency"]).
Proof.
  intros H Hn. unfold _validate_dhcp_subnet_consistency.
  rewrite !(interfaces_lan_attr_Some _ _ _ H). monad_simpl.
  fold (lan_subnet_of l). rewrite Hn. monad_simpl.
  unfold try_except, raise.
  rewrite (IPv4Network_raises_ValueError _ _ Hn). reflexivity.
Qed.

Lemma subnet_check_no_range l net :
  lan_of config = Some l ->
  IPv4Network (lan_subnet_of l) = Ok net ->
  dhcpd_lan_range config = None ->
  _validate_dhcp_subnet_consistency config
  = (Ok true, [Enter "_validate_dhcp_subnet_consistency"]).
Proof.
  intros H Hn Hr. unfold _validate_dhcp_subnet_consistency.
  rewrite !(interfaces_lan_attr_Some _ _ _ H). monad_simpl.
  fold (lan_subnet_of l). rewrite Hn. monad_simpl. rewrite Hr.
  reflexivity.
Qed.

Lemma subnet_check_endpoint_absent l net r :
  lan_of config = Some l ->
  IPv4Network (lan_subnet_of l) = Ok net ->
  dhcpd_lan_range config = Some r ->
  truthy (from_ r) && truthy (to r) = false ->
  _validate_dhcp_subnet_consistency config
  = (Ok true, [Enter "_validate_dhcp_subnet_consistency"]).
Proof.
  intros H Hn Hr Ht. unfold _validate_dhcp_subnet_consistency.
  rewrite !(interfaces_lan_attr_Some _ _ _ H). monad_simpl.
  fold (lan_subnet_of l). rewrite Hn. monad_simpl. rewrite Hr, Ht.
  reflexivity.
Qed.

(** An endpoint that does not parse makes the subnet check pass. *)
Lemma subnet_check_unparseable l net r :
  lan_of config = Some l ->
  IPv4Network (lan_subnet_of l) = Ok net ->
  dhcpd_lan_range config = Some r ->
  (exists e, IPv4Address (str (from_ r)) = Raise e) \/
  (exists e, IPv4Address (str (to r)) = Raise e) ->
  _validate_dhcp_subnet_consistency config
  = (Ok true, [Enter "_validate_dhcp_subnet_consistency"]).
Proof.
  intros H Hn Hr Hbad. unfold _validate_dhcp_subnet_consistency.
  rewrite !(interfaces_lan_attr_Some _ _ _ H). monad_simpl.
  fold (lan_subnet_of l). rewrite Hn. monad_simpl. rewrite Hr.
  destruct (negb _); [reflexivity|].
  destruct (IPv4Address (str (from_ r))) as [a|e] eqn:Ha.
  - destruct Hbad as [[e He]|[e He]]; [discriminate|].
    rewrite He. monad_simpl. unfold try_except at 2, raise.
    rewrite (IPv4Address_raises_ValueError _ _ He). reflexivity.
  - monad_simpl. unfold try_except at 2, raise.
    rewrite (IPv4Address_raises_ValueError _ _ Ha). reflexivity.
Qed.

(** The subnet check on two parseable endpoints and a formed network. *)
Lemma subnet_check_parsed l net r f t a b :
  lan_of config = Some l ->
  IPv4Network (lan_subnet_of l) = Ok net ->
  dhcpd_lan_range config = Some r ->
  from_ r = Some f -> to r = Some t ->
  IPv4Address f = Ok a -> IPv4Address t = Ok b ->
  let inside := network_contains net a && network_contains net b in
  _validate_dhcp_subnet_consistency config
  = (Ok inside,
     Enter "_validate_dhcp_subnet_consistency"
       :: (if inside then [] else [Log ERROR subnet_error])).
Proof.
  intros H Hn Hr Hf Ht Ha Hb inside. unfold _validate_dhcp_subnet_consistency.
  rewrite !(interfaces_lan_attr_Some _ _ _ H). monad_simpl.
  fold (lan_subnet_of l). rewrite Hn. monad_simpl. rewrite Hr, Hf, Ht.
  rewrite (IPv4Address_Ok_truthy _ _ Ha), (IPv4Address_Ok_truthy _ _ Hb).
  cbn [andb negb str]. rewrite Ha, Hb. monad_simpl.
  subst inside.
  destruct (network_contains net a), (network_contains net b); reflexivity.
Qed.

End Checks.

(** ** The shape of the checks' results *)

Section Validate.

Import ipaddress.

Variable config : PfSenseConfig.

(** The range check never raises; its trace is its entry followed by
    log lines. *)
Lemma range_check_shape :
  exists b msgs,
    _validate_dhcp_range_consistency config
    = (Ok b, Enter "_validate_dhcp_range_consistency"
               :: map (Log ERROR) msgs).
Proof.
  destruct (dhcpd_lan_range config) as [r|] eqn:Hr.
  2:{ exists true, []. apply range_check_no_range; assumption. }
  destruct (truthy (from_ r) && truthy (to r)) eqn:Ht.
  2:{ exists true, []. eapply range_check_endpoint_absent; eassumption. }
  destruct (IPv4Address (str (from_ r))) as [a|e] eqn:Ha.
  2:{ exists false, [invalid_range_error].
      eapply range_check_unparseable; eauto. }
  destruct (IPv4Address (str (to r))) as [b|e] eqn:Hb.
  2:{ exists false, [invalid_range_error].
      eapply range_check_unparseable; eauto. }
  apply andb_true_iff in Ht. destruct Ht as [Hf Ht].
  destruct (from_ r) as [f|] eqn:Ef; [|discriminate].
  destruct (to r) as [t|] eqn:Et; [|discriminate].
  exists (a <? b), (if a <? b then [] else [range_error]).
  rewrite (range_check_parsed config r f t a b Hr Ef Et Ha Hb).
  destruct (a <? b); reflexivity.
Qed.

(** With a LAN interface the subnet check never raises either. *)
Lemma subnet_check_shape l :
  lan_of config = Some l ->
  exists b msgs,
    _validate_dhcp_subnet_consistency config
    = (Ok b, Enter "_validate_dhcp_subnet_consistency"
               :: map (Log ERROR) msgs).
Proof.
  intros Hl.
  destruct (IPv4Network (lan_subnet_of l)) as [net|e] eqn:Hn.
  2:{ exists true, []. eapply subnet_check_no_network; eassumption. }
  destruct (dhcpd_lan_range config) as [r|] eqn:Hr.
  2:{ exists true, []. eapply subnet_check_no_range; eassumption. }
  destruct (truthy (from_ r) && truthy (to r)) eqn:Ht.
  2:{ exists true, []. eapply subnet_check_endpoint_absent; eassumption. }
  destruct (IPv4Address (str (from_ r))) as [a|e] eqn:Ha.
  2:{ exists true, []. eapply subnet_check_unparseable; eauto. }
  destruct (IPv4Address (str (to r))) as [b|e] eqn:Hb.
  2:{ exists true, []. eapply subnet_check_unparseable; eauto. }
  apply andb_true_iff in Ht. destruct Ht as [Hf Ht].
  destruct (from_ r) as [f|] eqn:Ef; [|discriminate].
  destruct (to r) as [t|] eqn:Et; [|discriminate].
  exists (network_contains net a && network_contains net b),
         (if network_contains net a && network_contains net b
          then [] else [subnet_error]).
  rewrite (subnet_check_parsed config l net r f t a b Hl Hn Hr Ef Et Ha Hb).
  destruct (network_contains net a && network_contains net b); reflexivity.
Qed.

(** When the hostname or the LAN address is missing, [validate] stops
    before the DHCP checks. *)
Lemma validate_gate_closed :
  reaches_dhcp_checks config = false ->
  exists msg, validate_pfsense_config config = (Ok false, [Log ERROR msg]).
Proof.
  unfold reaches_dhcp_checks, validate_pfsense_config. intros H.
  destruct (system config) as [s|] eqn:Hs.
  2:{ eexists. cbn [getattr]. rewrite bind_raise. reflexivity. }
  cbn [getattr]. rewrite bind_ret.
  destruct (truthy (hostname s)) eqn:Hh.
  2:{ eexists. reflexivity. }
  cbn [negb andb] in H |- *.
  destruct (lan_of config) as [l|] eqn:Hl.
  - rewrite (interfaces_lan_attr_Some config l ipaddr "ipaddr" Hl), bind_ret.
    rewrite H. eexists. reflexivity.
  - destruct (interfaces_lan_attr_None config ipaddr "ipaddr" Hl)
      as (e & He & Hc).
    rewrite He, bind_raise. unfold try_except, raise, isinstance.
    rewrite Hc. eexists. reflexivity.
Qed.

(** Otherwise both results decide the outcome, and the subnet check is
    entered only after the range check has passed. *)
Lemma validate_gate_open :
  reaches_dhcp_checks config = true ->
  exists b1 msgs1 b2 msgs2,
    _validate_dhcp_range_consistency config
    = (Ok b1, Enter "_validate_dhcp_range_consistency"
                :: map (Log ERROR) msgs1)
    /\ _validate_dhcp_subnet_consistency config
       = (Ok b2, Enter "_validate_dhcp_subnet_consistency"
                   :: map (Log ERROR) msgs2)
    /\ validate_pfsense_config config
       = (Ok (b1 && b2),
          (Enter "_validate_dhcp_range_consistency" :: map (Log ERROR) msgs1)
          ++ (if b1 then
                (Enter "_validate_dhcp_subnet_consistency"
                   :: map (Log ERROR) msgs2)
                ++ (if b2 then
                      [Log INFO "[+] pfSense configuration validation passed."]
                    else [])
              else []))%list.
Proof.
  unfold reaches_dhcp_checks. intros H.
  apply andb_true_iff in H. destruct H as [Hh Hi].
  destruct (system config) as [s|] eqn:Hs; [|discriminate].
  destruct (lan_of config) as [l|] eqn:Hl; [|discriminate].
  destruct range_check_shape as (b1 & msgs1 & H1).
  destruct (subnet_check_shape l Hl) as (b2 & msgs2 & H2).
  exists b1, msgs1, b2, msgs2. split; [exact H1|]. split; [exact H2|].
  unfold validate_pfsense_config. rewrite Hs. cbn [getattr].
  rewrite bind_ret, Hh. cbn [negb].
  rewrite (interfaces_lan_attr_Some config l ipaddr "ipaddr" Hl), bind_ret.
  rewrite Hi. cbn [negb]. rewrite H1, H2.
  destruct b1, b2; cbn; rewrite ?app_nil_r; reflexivity.
Qed.

End Validate.

(** ** Addresses are 32-bit, and the netmask test is CIDR membership *)

Section Cidr.

Import ipaddress.

Lemma int_of_digits_nonneg s : forall acc,
  0 <= acc -> all_digits s = true -> 0 <= int_of_digits acc s.
Proof.
  induction s as [|c s IH]; intros acc Hacc Hd; cbn [int_of_digits].
  - exact Hacc.
  - cbn [all_digits] in Hd. apply andb_true_iff in Hd. destruct Hd as [Hc Hs].
    apply IH; [|exact Hs].
    unfold is_ascii_digit in Hc. apply andb_true_iff in Hc.
    destruct Hc as [Hlo _]. apply Z.leb_le in Hlo. lia.
Qed.

Lemma _parse_octet_range o v : _parse_octet o = Ok v -> 0 <= v <= 255.
Proof.
  unfold _parse_octet. destruct o as [|c o']; [discriminate|].
  destruct (isascii_isdigit (String c o')) eqn:Hd; cbn [negb]; [|discriminate].
  destruct (3 <? _)%nat; [discriminate|].
  destruct (negb _ && _); [discriminate|].
  destruct (255 <? _) eqn:Hhi; [discriminate|].
  intros [= <-]. apply Z.ltb_ge in Hhi. split; [|exact Hhi].
  apply (int_of_digits_nonneg (String c o') 0); [lia|exact Hd].
Qed.

Lemma from_bytes_big_range octets : forall acc v,
  0 <= acc ->
  from_bytes_big acc octets = Ok v ->
  0 <= v < (acc + 1) * 256 ^ Z.of_nat (List.length octets).
Proof.
  induction octets as [|o rest IH]; intros acc v Hacc; cbn [from_bytes_big].
  - intros [= <-]. cbn. lia.
  - destruct (_parse_octet o) as [b|] eqn:Ho; cbn [res_bind]; [|discriminate].
    intros H. apply _parse_octet_range in Ho.
    apply IH in H; [|lia].
    cbn [List.length]. rewrite Nat2Z.inj_succ, Z.pow_succ_r by lia.
    split; [lia|].
    assert (0 < 256 ^ Z.of_nat (List.length rest)) by (apply Z.pow_pos_nonneg; lia).
    nia.
Qed.

(** A parsed address fits in 32 bits. *)
Lemma IPv4Address_range s a : IPv4Address s = Ok a -> 0 <= a < 2 ^ 32.
Proof.
  unfold IPv4Address, _ip_int_from_string.
  destruct (contains _ s); [discriminate|].
  destruct s as [|c s']; [discriminate|].
  destruct (List.length (split "." (String c s')) =? 4)%nat eqn:Hlen;
    cbn [negb]; [|discriminate].
  destruct (from_bytes_big 0 _) as [n|] eqn:Hb; [|discriminate].
  intros [= <-]. apply from_bytes_big_range in Hb; [|lia].
  apply Nat.eqb_eq in Hlen. rewrite Hlen in Hb.
  change ((0 + 1) * 256 ^ Z.of_nat 4) with (2 ^ 32) in Hb. exact Hb.
Qed.

(** Masking with [n] ones above [k] zeroes clears the low [k] bits. *)
Lemma land_high_ones x n k :
  0 <= k -> 0 <= n -> 0 <= x < 2 ^ (n + k) ->
  Z.land x (Z.shiftl (Z.ones n) k) = Z.shiftl (Z.shiftr x k) k.
Proof.
  intros Hk Hn Hx. apply Z.bits_inj'. intros i Hi.
  rewrite Z.land_spec, !Z.shiftl_spec by lia.
  destruct (Z.ltb_spec i k) as [Hlt|Hge].
  - rewrite (Z.testbit_neg_r (Z.ones n)), (Z.testbit_neg_r (Z.shiftr x k))
      by lia.
    apply andb_false_r.
  - rewrite Z.shiftr_spec by lia. replace (i - k + k) with i by lia.
    destruct (Z.ltb_spec (i - k) n) as [Hin|Hout].
    + rewrite Z.ones_spec_low by lia. apply andb_true_r.
    + rewrite Z.ones_spec_high by lia. rewrite andb_false_r.
      symmetry. destruct (Z.eq_dec x 0) as [->|Hnz].
      * apply Z.bits_0.
      * apply Z.bits_above_log2; [lia|].
        apply Z.log2_lt_pow2; [lia|].
        apply Z.lt_le_trans with (2 ^ (n + k)); [lia|].
        apply Z.pow_le_mono_r; lia.
Qed.

(** The netmask of a prefix length, as ones above zeroes. *)
Lemma _ip_int_from_prefix_ones n :
  0 <= n <= 32 ->
  _ip_int_from_prefix n = Z.shiftl (Z.ones n) (32 - n).
Proof.
  intros Hn. replace n with (Z.of_nat (Z.to_nat n)) by lia.
  assert (Hk : (Z.to_nat n <= 32)%nat) by lia.
  generalize dependent (Z.to_nat n). clear n Hn. intros k Hk.
  do 33 (destruct k as [|k]; [vm_compute; reflexivity|]). lia.
Qed.

(** The membership test of the code against membership in the block of
    [2 ^ (32 - n)] addresses around the base. *)
Lemma masked_eq_iff_in_cidr p n x :
  0 <= n <= 32 -> 0 <= p < 2 ^ 32 -> 0 <= x < 2 ^ 32 ->
  Z.land x (_ip_int_from_prefix n) = Z.land p (_ip_int_from_prefix n)
  <-> in_cidr p n x.
Proof.
  intros Hn Hp Hx. unfold in_cidr.
  rewrite _ip_int_from_prefix_ones by exact Hn.
  rewrite !land_high_ones by (try lia; replace (n + (32 - n)) with 32 by lia; lia).
  rewrite !Z.shiftl_mul_pow2, !Z.shiftr_div_pow2 by lia.
  assert (0 < 2 ^ (32 - n)) by (apply Z.pow_pos_nonneg; lia).
  split; intros H'.
  - apply Z.mul_cancel_r in H'; [exact H'|lia].
  - rewrite H'. reflexivity.
Qed.

End Cidr.

(** ** The network formed from the LAN address and prefix length *)

Section LanNetwork.

Import ipaddress.

Lemma split_append sep s d :
  contains sep s = false ->
  split sep (s ++ String sep d) = s :: split sep d.
Proof.
  induction s as [|c s IH]; cbn [contains append split]; intros H.
  - rewrite Ascii.eqb_refl. reflexivity.
  - apply orb_false_iff in H. destruct H as [Hc Hs].
    rewrite Ascii.eqb_sym, Hc, (IH Hs). reflexivity.
Qed.

(** A prefix length between 0 and 32, printed by the f-string, is read
    back by [_make_netmask] as the same prefix length. *)
Lemma _make_netmask_of_prefix n :
  0 <= n <= 32 ->
  split "/" (str_int (Some n)) = [str_int (Some n)]
  /\ _make_netmask (str_int (Some n)) = Ok (_ip_int_from_prefix n, n).
Proof.
  intros Hn. replace n with (Z.of_nat (Z.to_nat n)) by lia.
  assert (Hk : (Z.to_nat n <= 32)%nat) by lia.
  generalize dependent (Z.to_nat n). clear n Hn. intros k Hk.
  do 33 (destruct k as [|k]; [vm_compute; split; reflexivity|]). lia.
Qed.

(** [IPv4Network] on the LAN address and prefix length. *)
Lemma IPv4Network_of_lan l ip n p :
  ipaddr l = Some ip -> subnet l = Some n ->
  IPv4Address ip = Ok p -> 0 <= n <= 32 ->
  IPv4Network (lan_subnet_of l)
  = Ok (mkNetwork (Z.land p (_ip_int_from_prefix n))
          (_ip_int_from_prefix n) n).
Proof.
  intros Hip Hsub Hp Hn.
  destruct (_make_netmask_of_prefix n Hn) as [Hsplit Hmask].
  unfold lan_subnet_of. rewrite Hip, Hsub. cbn [str].
  unfold IPv4Network, _split_optional_netmask.
  change (ip ++ "/" ++ str_int (Some n))
    with (ip ++ String "/" (str_int (Some n))).
  rewrite (split_append _ _ _ (IPv4Address_Ok_no_slash _ _ Hp)), Hsplit.
  cbn [List.length Nat.ltb Nat.leb res_bind]. rewrite Hp.
  cbn [res_bind]. rewrite Hmask. reflexivity.
Qed.

(** On such a network the membership test of the code is [in_cidr]. *)
Lemma network_contains_in_cidr p n x :
  0 <= n <= 32 -> 0 <= p < 2 ^ 32 -> 0 <= x < 2 ^ 32 ->
  network_contains
    (mkNetwork (Z.land p (_ip_int_from_prefix n)) (_ip_int_from_prefix n) n) x
  = true <-> in_cidr p n x.
Proof.
  intros Hn Hp Hx. unfold network_contains. cbn [netmask network_address].
  rewrite Z.eqb_eq. apply masked_eq_iff_in_cidr; assumption.
Qed.

End LanNetwork.

(** ** The validator: claims *)

Section ValidatorClaims.

Import ipaddress.



(** Whatever the configuration, a missing hostname or LAN address makes
    [validate] answer [False]. *)
Lemma validate_gate_closed_result config :
  reaches_dhcp_checks config = false ->
  result (validate_pfsense_config config) = Ok false.
Proof.
  intros H. destruct (validate_gate_closed config H) as [msg ->].
  reflexivity.
Qed.

(** [validate] answers [False] as soon as one of the two checks does. *)
Lemma validate_false_of_check config :
  result (_validate_dhcp_range_consistency config) = Ok false \/
  result (_validate_dhcp_subnet_consistency config) = Ok false ->
  result (validate_pfsense_config config) = Ok false.
Proof.
  intros H. destruct (reaches_dhcp_checks config) eqn:Hg.
  - destruct (validate_gate_open config Hg)
      as (b1 & m1 & b2 & m2 & H1 & H2 & ->).
    rewrite H1, H2 in H. cbn [result fst] in *.
    destruct H as [[= ->]|[= ->]]; [reflexivity|].
    rewrite andb_false_r. reflexivity.
  - apply validate_gate_closed_result; exact Hg.
Qed.

End ValidatorClaims.

(** C10. [validate_pfsense_config] returns a boolean on every
    configuration and never raises: its answer is [True] exactly when the
    hostname and the LAN address are present and both DHCP checks return
    [True]. Whatever an inner check raises is caught and turned into
    [False], and so is the [AttributeError] of an attribute access on a
    missing section, which the handler logs. *)
Theorem validate_never_raises (config : PfSenseConfig) :
  result (validate_pfsense_config config)
  = Ok (reaches_dhcp_checks config
        && passes (_validate_dhcp_range_consistency config)
        && passes (_validate_dhcp_subnet_consistency config))
  /\ (forall e,
        result (_validate_dhcp_range_consistency config) = Raise e \/
        result (_validate_dhcp_subnet_consistency config) = Raise e ->
        result (validate_pfsense_config config) = Ok false)
  /\ (system config = None \/
      (exists s, system config = Some s /\ truthy (hostname s) = true
                 /\ lan_of config = None) ->
      exists e,
        exn_cls e = AttributeError
        /\ validate_pfsense_config config
           = (Ok false,
              [Log ERROR ("[!] Configuration validation failed: "
                          ++ exn_msg e)])).
Proof.
  assert (Hres : result (validate_pfsense_config config)
                 = Ok (reaches_dhcp_checks config
                       && passes (_validate_dhcp_range_consistency config)
                       && passes (_validate_dhcp_subnet_consistency config))).
  { destruct (reaches_dhcp_checks config) eqn:Hg.
    - destruct (validate_gate_open config Hg)
        as (b1 & m1 & b2 & m2 & H1 & H2 & ->).
      unfold passes. rewrite H1, H2. reflexivity.
    - apply validate_gate_closed_result; exact Hg. }
  split; [exact Hres|]. split.
  - intros e H. rewrite Hres. f_equal. unfold passes.
    destruct H as [H|H]; rewrite H.
    + apply andb_false_iff. left. apply andb_false_r.
    + apply andb_false_r.
  - intros [Hs|(s & Hs & Hh & Hl)]; unfold validate_pfsense_config; rewrite Hs;
      cbn [getattr].
    + rewrite bind_raise. eexists. split; [|reflexivity]. reflexivity.
    + rewrite bind_ret, Hh. cbn [negb].
      destruct (interfaces_lan_attr_None config ipaddr "ipaddr" Hl)
        as (e & He & Hc).
      rewrite He, bind_raise. unfold try_except, raise, isinstance.
      rewrite Hc. exists e. split; [exact Hc|reflexivity].
Qed.

(** A document without any section, whose hostname access raises, and a
    document without a LAN interface, on which the subnet check raises. *)
Lemma validate_never_raises_example :
  (exists e,
      exn_cls e = AttributeError
      /\ validate_pfsense_config empty_config
         = (Ok false,
            [Log ERROR ("[!] Configuration validation failed: "
                        ++ exn_msg e)]))
  /\ result (validate_pfsense_config no_lan_config) = Ok false.
Proof.
  split.
  - exact (proj2 (proj2 (validate_never_raises empty_config))
             (or_introl eq_refl)).
  - exact (proj1 (proj2 (validate_never_raises no_lan_config))
             (mkExn AttributeError "'NoneType' object has no attribute 'ipaddr'")
             (or_intror eq_refl)).
Defined.

(** C7. When both endpoints of the DHCP range are present and parse as IPv4
    addresses, the range-consistency check accepts exactly when [from] is
    strictly below [to]; when it is not, [validate] answers [False]. *)
Theorem range_check_accepts_iff_from_lt_to
    (config : PfSenseConfig) (r : DhcpRange) (f t : string) (a b : Z) :
  dhcpd_lan_range config = Some r ->
  from_ r = Some f -> to r = Some t ->
  ipaddress.IPv4Address f = Ok a -> ipaddress.IPv4Address t = Ok b ->
  result (_validate_dhcp_range_consistency config) = Ok (a <? b)
  /\ ((a <? b) = false ->
      result (validate_pfsense_config config) = Ok false).
Proof.
  intros Hr Hf Ht Ha Hb.
  pose proof (range_check_parsed config r f t a b Hr Hf Ht Ha Hb) as H.
  split.
  - rewrite H. reflexivity.
  - intros Hlt. apply validate_false_of_check. left.
    rewrite H, Hlt. reflexivity.
Qed.

(** The two ranges of the specification: 100 to 50 is refused, 50 to 100
    passes. *)
Lemma range_check_examples :
  (result (_validate_dhcp_range_consistency reversed_range_config) = Ok false
   /\ result (validate_pfsense_config reversed_range_config) = Ok false)
  /\ result (_validate_dhcp_range_consistency ordered_range_config) = Ok true.
Proof.
  split.
  - destruct (range_check_accepts_iff_from_lt_to reversed_range_config
                (mkDhcpRange (Some "192.168.1.100") (Some "192.168.1.50"))
                "192.168.1.100" "192.168.1.50" 3232235876 3232235826
                eq_refl eq_refl eq_refl eq_refl eq_refl) as [H1 H2].
    split; [exact H1|exact (H2 eq_refl)].
  - exact (proj1 (range_check_accepts_iff_from_lt_to ordered_range_config
                (mkDhcpRange (Some "192.168.1.50") (Some "192.168.1.100"))
                "192.168.1.50" "192.168.1.100" 3232235826 3232235876
                eq_refl eq_refl eq_refl eq_refl eq_refl)).
Defined.

(** C8. When both endpoints of the DHCP range parse as IPv4 addresses and
    one of them lies outside the CIDR network formed from the LAN address
    and prefix length, the subnet check answers [False] and [validate]
    rejects the configuration. *)
Theorem range_outside_lan_network_rejected
    (config : PfSenseConfig) (l : LanInterface) (ip : string) (n p : Z)
    (r : DhcpRange) (f t : string) (a b : Z) :
  lan_of config = Some l ->
  ipaddr l = Some ip -> subnet l = Some n ->
  ipaddress.IPv4Address ip = Ok p -> 0 <= n <= 32 ->
  dhcpd_lan_range config = Some r ->
  from_ r = Some f -> to r = Some t ->
  ipaddress.IPv4Address f = Ok a -> ipaddress.IPv4Address t = Ok b ->
  ~ in_cidr p n a \/ ~ in_cidr p n b ->
  result (_validate_dhcp_subnet_consistency config) = Ok false
  /\ result (validate_pfsense_config config) = Ok false.
Proof.
  intros Hl Hip Hsub Hp Hn Hr Hf Ht Ha Hb Hout.
  pose proof (IPv4Network_of_lan l ip n p Hip Hsub Hp Hn) as Hnet.
  pose proof (subnet_check_parsed config l _ r f t a b Hl Hnet Hr Hf Ht Ha Hb)
    as H. cbv zeta in H.
  assert (Hin : ipaddress.network_contains
                  (ipaddress.mkNetwork
                     (Z.land p (ipaddress._ip_int_from_prefix n))
                     (ipaddress._ip_int_from_prefix n) n) a
                && ipaddress.network_contains
                     (ipaddress.mkNetwork
                        (Z.land p (ipaddress._ip_int_from_prefix n))
                        (ipaddress._ip_int_from_prefix n) n) b = false).
  { apply andb_false_iff.
    pose proof (IPv4Address_range _ _ Hp) as Rp.
    pose proof (IPv4Address_range _ _ Ha) as Ra.
    pose proof (IPv4Address_range _ _ Hb) as Rb.
    destruct Hout as [Ho|Ho]; [left|right];
      apply not_true_is_false; intros Hc; apply Ho;
      apply (network_contains_in_cidr p n); assumption. }
  rewrite Hin in H.
  assert (Hs : result (_validate_dhcp_subnet_consistency config) = Ok false)
    by (rewrite H; reflexivity).
  split; [exact Hs|].
  apply validate_false_of_check. right. exact Hs.
Qed.

(** The range of the specification: 192.168.1.50 to 192.168.2.10 on
    192.168.1.1/24, whose upper end falls outside 192.168.1.0/24. *)
Lemma range_outside_lan_network_example :
  result (_validate_dhcp_subnet_consistency outside_subnet_config) = Ok false
  /\ result (validate_pfsense_config outside_subnet_config) = Ok false.
Proof.
  apply (range_outside_lan_network_rejected outside_subnet_config
           (mkLanInterface (Some "192.168.1.1") (Some 24))
           "192.168.1.1" 24 3232235777
           (mkDhcpRange (Some "192.168.1.50") (Some "192.168.2.10"))
           "192.168.1.50" "192.168.2.10" 3232235826 3232236042);
    try reflexivity.
  - lia.
  - right. unfold in_cidr. vm_compute. discriminate.
Defined.

(** A sentinel in [from] is refused: the range check answers [False] for
    it, and so does [validate]; with a parseable [from] in its place the
    same document is accepted. *)
Lemma sentinel_from_is_rejected :
  (exists e, ipaddress.IPv4Address "dhcp" = Raise e)
  /\ result (_validate_dhcp_range_consistency sentinel_from_config) = Ok false
  /\ result (validate_pfsense_config sentinel_from_config) = Ok false
  /\ result (validate_pfsense_config ordered_range_config) = Ok true.
Proof.
  split; [eexists; reflexivity|].
  repeat split; reflexivity.
Qed.

(** C1, as the code has it. When both endpoints of the DHCP range are
    present and [from] does not parse as an IPv4 address, the subnet check
    skips the value and never answers [False]; the range-consistency check
    logs the invalid addresses and answers [False], and [validate] answers
    [False]. *)
Theorem unparseable_from_fails_range_check_only
    (config : PfSenseConfig) (r : DhcpRange) (f t : string) (e : exn) :
  dhcpd_lan_range config = Some r ->
  from_ r = Some f -> to r = Some t ->
  f <> "" -> t <> "" ->
  ipaddress.IPv4Address f = Raise e ->
  result (_validate_dhcp_subnet_consistency config) <> Ok false
  /\ _validate_dhcp_range_consistency config
     = (Ok false, [Enter "_validate_dhcp_range_consistency";
                   Log ERROR invalid_range_error])
  /\ result (validate_pfsense_config config) = Ok false.
Proof.
  intros Hr Hf Ht Nf Nt He.
  assert (Htr : truthy (from_ r) && truthy (to r) = true).
  { rewrite Hf, Ht. destruct f; [congruence|]. destruct t; [congruence|].
    reflexivity. }
  assert (Hbad : (exists e, ipaddress.IPv4Address (str (from_ r)) = Raise e) \/
                 (exists e, ipaddress.IPv4Address (str (to r)) = Raise e)).
  { left. exists e. rewrite Hf. exact He. }
  pose proof (range_check_unparseable config r Hr Htr Hbad) as Hrange.
  split; [|split].
  - destruct (lan_of config) as [l|] eqn:Hl.
    + destruct (ipaddress.IPv4Network (lan_subnet_of l)) as [net|e'] eqn:Hn.
      * rewrite (subnet_check_unparseable config l net r Hl Hn Hr Hbad).
        discriminate.
      * rewrite (subnet_check_no_network config l e' Hl Hn). discriminate.
    + destruct (subnet_check_no_lan config Hl) as (e' & -> & _). discriminate.
  - exact Hrange.
  - apply validate_false_of_check. left. rewrite Hrange. reflexivity.
Qed.

Lemma unparseable_from_example :
  result (_validate_dhcp_subnet_consistency sentinel_from_config) <> Ok false
  /\ _validate_dhcp_range_consistency sentinel_from_config
     = (Ok false, [Enter "_validate_dhcp_range_consistency";
                   Log ERROR invalid_range_error])
  /\ result (validate_pfsense_config sentinel_from_config) = Ok false.
Proof.
  apply (unparseable_from_fails_range_check_only sentinel_from_config
           (mkDhcpRange (Some "dhcp") (Some "192.168.1.100"))
           "dhcp" "192.168.1.100"
           (ipaddress.address_error "Expected 4 octets"));
    try reflexivity; discriminate.
Defined.



(** ** The transport session *)

Section Transport.

Variable settings : Settings.
Variable world : World.
Variable encode : PfSenseConfig -> res string.
Variable decode : string -> res PfSenseConfig.

Local Opaque append.

(** *** Stepping through a computation *)

Lemma bind_Ok {A B} (a : A) (t : list event) (f : A -> M B) :
  bind (Ok a, t) f = prefix t (f a).
Proof. unfold bind, prefix, result, trace. destruct (f a); reflexivity. Qed.

Lemma bind_prefix {A B} (t : list event) (m : M A) (f : A -> M B) :
  bind (prefix t m) f = prefix t (bind m f).
Proof.
  unfold prefix, bind, result, trace. destruct m as [[a|e] t1]; cbn [fst snd].
  - destruct (f a). cbn [fst snd]. rewrite app_assoc. reflexivity.
  - reflexivity.
Qed.

Lemma bind_invoke {B} (c : call) (f : unit -> M B) :
  bind (invoke world c) f
  = match run world c with
    | None => prefix [Invoke c] (f tt)
    | Some e => (Raise e, [Invoke c])
    end.
Proof.
  unfold invoke. rewrite bind_emit.
  destruct (run world c); cbn [result trace fst snd ret raise].
  - unfold bind. reflexivity.
  - unfold bind, prefix, result, trace. destruct (f tt); reflexivity.
Qed.

Lemma invoke_eq (c : call) :
  invoke world c
  = match run world c with
    | None => (Ok tt, [Invoke c])
    | Some e => (Raise e, [Invoke c])
    end.
Proof. unfold invoke. rewrite bind_emit. destruct (run world c); reflexivity. Qed.

Lemma bind_raise' {A B} (e : exn) (t : list event) (f : A -> M B) :
  bind (Raise e, t) f = (Raise e, t).
Proof. reflexivity. Qed.

Lemma result_prefix {A} (t : list event) (m : M A) :
  result (prefix t m) = result m.
Proof. reflexivity. Qed.

Lemma trace_prefix {A} (t : list event) (m : M A) :
  trace (prefix t m) = (t ++ trace m)%list.
Proof. reflexivity. Qed.

Lemma closes_app t1 t2 : closes (t1 ++ t2) = (closes t1 + closes t2)%nat.
Proof. unfold closes. rewrite filter_app, length_app. reflexivity. Qed.

Lemma before_close_app t1 t2 :
  before_close (t1 ++ t2) = (before_close t1 ++ before_close t2)%list.
Proof. apply filter_app. Qed.

Lemma no_call_raised_app t1 t2 :
  no_call_raised world (t1 ++ t2)
  = no_call_raised world t1 && no_call_raised world t2.
Proof. apply forallb_app. Qed.

Lemma remote_effects_app t1 t2 :
  remote_effects (t1 ++ t2) = (remote_effects t1 ++ remote_effects t2)%list.
Proof. apply filter_app. Qed.

(** *** Inversion of a computation that returned *)

Lemma bind_Ok_inv {A B} (m : M A) (f : A -> M B) (v : B) (t : list event) :
  bind m f = (Ok v, t) ->
  exists a t1 t2, m = (Ok a, t1) /\ f a = (Ok v, t2) /\ t = (t1 ++ t2)%list.
Proof.
  unfold bind. destruct m as [[a|e] t1]; [|discriminate].
  destruct (f a) as [r t2] eqn:Hf. intros [= -> <-].
  exists a, t1, t2. repeat split; assumption || reflexivity.
Qed.

Lemma invoke_Ok_inv (c : call) (u : unit) (t : list event) :
  invoke world c = (Ok u, t) -> t = [Invoke c] /\ run world c = None.
Proof.
  rewrite invoke_eq. destruct (run world c); [discriminate|].
  intros [= _ <-]. split; reflexivity.
Qed.

Lemma lift_Ok_inv {A} (r : res A) (a : A) (t : list event) :
  lift r = (Ok a, t) -> r = Ok a /\ t = [].
Proof. unfold lift. intros [= -> <-]. split; reflexivity. Qed.

Lemma ret_Ok_inv {A} (a v : A) (t : list event) :
  ret a = (Ok v, t) -> v = a /\ t = [].
Proof. unfold ret. intros [= -> <-]. split; reflexivity. Qed.

Lemma with_exit_Ok_inv {A} (body : M A) (ex : M unit) (v : A) (t : list event) :
  with_exit body ex = (Ok v, t) ->
  exists t1 t2, body = (Ok v, t1) /\ ex = (Ok tt, t2) /\ t = (t1 ++ t2)%list.
Proof.
  unfold with_exit. destruct body as [[a|e] t1]; destruct ex as [[[]|e'] t2];
    try discriminate.
  intros [= -> <-]. exists t1, t2. repeat split; reflexivity.
Qed.

Lemma try_except_Ok_inv {A} (body : M A) h (v : A) (t : list event) :
  (forall e t0, body = (Raise e, t0) ->
     forall hd, h e = Some hd -> is_ok (result hd) = false) ->
  try_except body h = (Ok v, t) -> body = (Ok v, t).
Proof.
  unfold try_except. destruct body as [[a|e] t1]; [intros _ H; exact H|].
  intros Hh. destruct (h e) as [hd|] eqn:Hd; [|discriminate].
  specialize (Hh e t1 eq_refl hd Hd). destruct hd as [[r|e'] t']; cbn in Hh;
    discriminate.
Qed.

(** *** [connect] *)

Ltac raised_case :=
  right; do 2 eexists; split; [reflexivity|];
  cbn [app closes filter is_close List.length before_close negb
       no_call_raised forallb remote_effects is_remote_effect];
  unfold returns;
  repeat match goal with
         | H : run world _ = _ |- _ => rewrite H
         end;
  repeat split; reflexivity.

Ltac finish_raised :=
  unfold try_except;
  repeat match goal with
         | |- context [isinstance ?e ?c] => destruct (isinstance e c)
         end;
  cbn [bind logging_error emit raise];
  raised_case.

(** [connect] either returns after the calls of [connect_calls], or
    raises; when it raises, one of its calls raised, and the session was
    neither used nor closed. *)
Lemma connect_cases :
  (connect settings world = (Ok tt, connect_calls settings)
   /\ no_call_raised world (connect_calls settings) = true)
  \/ (exists e t,
        connect settings world = (Raise e, t)
        /\ closes t = 0%nat
        /\ no_call_raised world (before_close t) = false
        /\ remote_effects t = []).
Proof.
  unfold connect, connect_calls.
  destruct (truthy (PFSENSE_KEY_FILE settings)).
  - rewrite bind_invoke.
    destruct (run world (RSAKey_from_private_key_file _)) eqn:E1.
    { rewrite bind_raise'. finish_raised. }
    rewrite invoke_eq.
    destruct (run world (connect_pkey _ _ _ _)) eqn:E2.
    { unfold prefix. cbn [result trace fst snd app]. rewrite bind_raise'.
      finish_raised. }
    unfold prefix. cbn [result trace fst snd app]. rewrite bind_Ok, invoke_eq.
    destruct (run world (connect_password _ _ _ _)) eqn:E3.
    { unfold prefix. cbn [result trace fst snd app]. finish_raised. }
    left. unfold prefix. cbn [result trace fst snd app try_except
      no_call_raised forallb]. unfold returns. rewrite E1, E2, E3.
    split; reflexivity.
  - rewrite bind_ret, invoke_eq.
    destruct (run world (connect_password _ _ _ _)) eqn:E3.
    { finish_raised. }
    left. cbn [app try_except no_call_raised forallb]. unfold returns.
    rewrite E3. split; reflexivity.
Qed.

(** *** Counting [close] *)

Lemma quiet_ret {A} (a : A) : quiet world (ret a).
Proof. split; reflexivity. Qed.

Lemma quiet_invoke (c : call) : is_close (Invoke c) = false -> quiet world (invoke world c).
Proof.
  intros Hc. rewrite invoke_eq. unfold quiet, closes, before_close.
  destruct (run world c) eqn:E;
    cbn [trace result snd fst filter is_ok]; rewrite Hc;
    cbn [negb List.length no_call_raised forallb]; unfold returns; rewrite E;
    split; reflexivity.
Qed.

Lemma quiet_bind {A B} (m : M A) (f : A -> M B) :
  quiet world m -> (forall a, quiet world (f a)) -> quiet world (bind m f).
Proof.
  intros [Hc Hn] Hf. destruct m as [[a|e] t]; cbn [trace result fst snd is_ok] in *.
  - rewrite bind_Ok. destruct (Hf a) as [Hc' Hn'].
    unfold quiet. rewrite trace_prefix, result_prefix, closes_app,
      before_close_app, no_call_raised_app, Hc, Hn, Hc', Hn'.
    split; reflexivity.
  - split; assumption.
Qed.

Lemma quiet_with_exit {A} (body : M A) (ex : M unit) :
  quiet world body -> quiet world ex -> quiet world (with_exit body ex).
Proof.
  intros [Hc Hn] [Hc' Hn']. unfold quiet, with_exit.
  destruct body as [[a|e] t]; destruct ex as [[u|e'] t'];
    cbn [trace result fst snd is_ok] in *;
    rewrite closes_app, before_close_app, no_call_raised_app, Hc, Hn, Hc', Hn';
    split; reflexivity.
Qed.

Lemma quiet_connect : quiet world (connect settings world).
Proof.
  destruct connect_cases as [[-> Hn]|(e & t & -> & Hc & Hn & _)].
  - unfold quiet, connect_calls. cbn [trace result fst snd is_ok].
    unfold connect_calls in Hn.
    destruct (truthy (PFSENSE_KEY_FILE settings));
      cbn [app closes filter is_close List.length before_close negb] in *;
      split; [reflexivity|exact Hn|reflexivity|exact Hn].
  - split; assumption.
Qed.

Lemma closed_iff_clean_bind {A B} enc_ok (m : M A) (f : A -> M B) :
  quiet world m -> (forall a, closed_iff_clean world enc_ok (f a)) ->
  closed_iff_clean world enc_ok (bind m f).
Proof.
  intros [Hc Hn] Hf. unfold closed_iff_clean.
  destruct m as [[a|e] t]; cbn [trace result fst snd is_ok] in *.
  - rewrite bind_Ok, trace_prefix, closes_app, before_close_app,
      no_call_raised_app, Hc, Hn. exact (Hf a).
  - cbn [bind trace snd]. rewrite Hc, Hn. reflexivity.
Qed.

(** The last step: [close] itself, followed by steps that make no call. *)
Lemma closed_iff_clean_close {B} (f : unit -> M B) :
  (forall u, trace (f u) = []) ->
  closed_iff_clean world true (bind (invoke world client_close) f).
Proof.
  intros Hf. unfold closed_iff_clean. rewrite bind_invoke.
  destruct (run world client_close).
  - reflexivity.
  - rewrite trace_prefix, Hf. reflexivity.
Qed.

Lemma push_closed_iff_clean config :
  closed_iff_clean world (is_ok (encode config))
    (push_pfsense_config settings world encode config).
Proof.
  unfold push_pfsense_config. cbv zeta.
  apply closed_iff_clean_bind; [apply quiet_connect|intros _].
  apply closed_iff_clean_bind; [apply quiet_invoke; reflexivity|intros _].
  apply closed_iff_clean_bind; [apply quiet_invoke; reflexivity|intros _].
  destruct (encode config) as [config_xml|e].
  2:{ unfold closed_iff_clean. reflexivity. }
  rewrite bind_lift_Ok. cbn [is_ok].
  apply closed_iff_clean_bind; [apply quiet_invoke; reflexivity|intros _].
  apply closed_iff_clean_bind.
  { apply quiet_with_exit; [|apply quiet_invoke; reflexivity].
    apply quiet_bind; [apply quiet_invoke; reflexivity|intros _].
    apply quiet_bind; [apply quiet_invoke; reflexivity|intros _].
    apply quiet_ret. }
  intros local_path.
  apply closed_iff_clean_bind; [apply quiet_invoke; reflexivity|intros _].
  apply closed_iff_clean_bind; [apply quiet_invoke; reflexivity|intros _].
  apply closed_iff_clean_bind; [apply quiet_invoke; reflexivity|intros _].
  apply closed_iff_clean_bind; [apply quiet_invoke; reflexivity|intros _].
  apply closed_iff_clean_bind; [apply quiet_invoke; reflexivity|intros _].
  apply closed_iff_clean_close. reflexivity.
Qed.

Lemma fetch_closed_iff_clean :
  closed_iff_clean world true (fetch_pfsense_config settings world decode).
Proof.
  unfold fetch_pfsense_config.
  apply closed_iff_clean_bind; [apply quiet_connect|intros _].
  apply closed_iff_clean_bind; [apply quiet_invoke; reflexivity|intros _].
  apply closed_iff_clean_bind; [apply quiet_invoke; reflexivity|intros _].
  destruct (negb (exit_status world =? 0)).
  - apply closed_iff_clean_bind; [apply quiet_invoke; reflexivity|intros _].
    apply closed_iff_clean_close. reflexivity.
  - apply closed_iff_clean_bind; [apply quiet_invoke; reflexivity|intros _].
    apply closed_iff_clean_close. reflexivity.
Qed.

(** *** A push that returns *)

Lemma connect_Ok_inv (u : unit) (t : list event) :
  connect settings world = (Ok u, t) -> t = connect_calls settings.
Proof.
  destruct connect_cases as [[-> _]|(e & t' & -> & _)].
  - intros [= _ <-]. reflexivity.
  - discriminate.
Qed.

Ltac invert_step_as H H1 :=
  let a := fresh "a" in
  let t1 := fresh "t" in
  let t2 := fresh "t" in
  apply bind_Ok_inv in H;
  destruct H as (a & t1 & t2 & H1 & H & ->).

Ltac invert_step H :=
  let H1 := fresh "Hstep" in
  invert_step_as H H1;
  first [ apply invoke_Ok_inv in H1; destruct H1 as [-> _]
        | apply connect_Ok_inv in H1; rewrite H1; clear H1
        | apply lift_Ok_inv in H1; destruct H1 as [H1 ->] ].

(** A push that returns has returned 1, the encoding succeeded, and the
    calls were those of [connect] followed by [push_calls]. *)
Lemma push_returns_inv config v t :
  push_pfsense_config settings world encode config = (Ok v, t) ->
  v = 1
  /\ exists config_xml,
       encode config = Ok config_xml
       /\ t = (connect_calls settings
               ++ push_calls settings world config_xml)%list.
Proof.
  unfold push_pfsense_config. cbv zeta. intros H.
  invert_step H. invert_step H. invert_step H. invert_step H.
  invert_step H. invert_step_as H Hwith.
  apply with_exit_Ok_inv in Hwith.
  destruct Hwith as (tb & te & Hbody & Hexit & ->).
  invert_step Hbody. invert_step Hbody.
  apply ret_Ok_inv in Hbody. destruct Hbody as [-> ->].
  apply invoke_Ok_inv in Hexit. destruct Hexit as [-> _].
  invert_step H. invert_step H. invert_step H. invert_step H.
  invert_step H. invert_step H.
  apply ret_Ok_inv in H. destruct H as [-> ->].
  split; [reflexivity|].
  eexists. split; [eassumption|]. reflexivity.
Qed.

(** *** The two attempts of [connect] *)


End Transport.

(** ** The transport session and the orchestrator: claims *)




(** A step that raises leaves the session open: [close] is not invoked
    when the upload of a push fails, when its reload command cannot be
    started, or when the remote command of a fetch cannot be started. *)
Lemma close_skipped_when_a_step_raises :
  (closes (trace (push_pfsense_config key_settings world_upload_fails
                    sample_encode ordered_range_config)) = 0%nat
   /\ result (push_pfsense_config key_settings world_upload_fails
                sample_encode ordered_range_config)
      = Raise (mkExn OSError "Failure"))
  /\ closes (trace (push_pfsense_config key_settings world_reload_fails
                      sample_encode ordered_range_config)) = 0%nat
  /\ closes (trace (fetch_pfsense_config key_settings world_exec_fails
                      sample_decode)) = 0%nat.
Proof. repeat split; reflexivity. Qed.

(** C4, as the code has it. On every run of push and of fetch, [close] is
    invoked once when every call before it has returned (and, for push, the
    document could be encoded), whether the remote command of fetch exits
    with status 0 or not; it is not invoked at all when a step before it
    raises. It is never invoked twice. *)
Theorem close_invoked_once_unless_a_step_raised
    (settings : Settings) (world : World)
    (encode : PfSenseConfig -> res string)
    (decode : string -> res PfSenseConfig) (config : PfSenseConfig) :
  closes (trace (push_pfsense_config settings world encode config))
  = (if no_call_raised world
          (before_close
             (trace (push_pfsense_config settings world encode config)))
        && is_ok (encode config)
     then 1%nat else 0%nat)
  /\ closes (trace (fetch_pfsense_config settings world decode))
     = (if no_call_raised world
             (before_close (trace (fetch_pfsense_config settings world decode)))
        then 1%nat else 0%nat).
Proof.
  split.
  - exact (push_closed_iff_clean settings world encode config).
  - pose proof (fetch_closed_iff_clean settings world decode) as H.
    unfold closed_iff_clean in H. rewrite andb_true_r in H. exact H.
Qed.

(** C6. A push in which every step succeeds acts on the device in this
    order and in no other: copy the live configuration to the backup path,
    upload the new one to the staging path, move it over the live
    configuration, remove the cache file, run the reload command. *)
Theorem push_remote_effects_in_order
    (settings : Settings) (world : World)
    (encode : PfSenseConfig -> res string) (config : PfSenseConfig) (v : Z) :
  result (push_pfsense_config settings world encode config) = Ok v ->
  remote_effects (trace (push_pfsense_config settings world encode config))
  = push_remote_effects settings (tmpfile_name world).
Proof.
  intros H.
  destruct (push_pfsense_config settings world encode config) as [r t] eqn:Hp.
  cbn [result fst] in H. subst r. cbn [trace snd].
  apply push_returns_inv in Hp. destruct Hp as (_ & xml & _ & ->).
  rewrite remote_effects_app.
  assert (Hc : remote_effects (connect_calls settings) = []).
  { unfold connect_calls.
    destruct (truthy (PFSENSE_KEY_FILE settings)); reflexivity. }
  rewrite Hc. reflexivity.
Qed.

Lemma push_remote_effects_example :
  remote_effects (trace (push_pfsense_config key_settings world_ok
                           sample_encode ordered_range_config))
  = [Invoke (exec_command "cp /conf/config.xml /conf/config.xml.bak");
     Invoke (sftp_put "/tmp/tmpa1b2c3" "/tmp/config.xml");
     Invoke (exec_command "mv /tmp/config.xml /conf/config.xml");
     Invoke (exec_command "rm /tmp/config.cache");
     Invoke (exec_command "/etc/rc.reload_all")].
Proof.
  exact (push_remote_effects_in_order key_settings world_ok sample_encode
           ordered_range_config 1 eq_refl).
Defined.



(** * Further properties of the validator *)

Section ValidatorFacts.

Import ipaddress.

Variable config : PfSenseConfig.

(** A failed range check has logged one line, a passed one none. *)
Lemma range_check_one_line :
  exists (b : bool) (msg : string),
    _validate_dhcp_range_consistency config
    = (Ok b, Enter "_validate_dhcp_range_consistency"
               :: (if b then [] else [Log ERROR msg])).
Proof.
  destruct (dhcpd_lan_range config) as [r|] eqn:Hr.
  2:{ exists true, EmptyString. apply range_check_no_range; assumption. }
  destruct (truthy (from_ r) && truthy (to r)) eqn:Ht.
  2:{ exists true, EmptyString. eapply range_check_endpoint_absent; eassumption. }
  destruct (IPv4Address (str (from_ r))) as [a|e] eqn:Ha.
  2:{ exists false, invalid_range_error.
      eapply range_check_unparseable; eauto. }
  destruct (IPv4Address (str (to r))) as [b|e] eqn:Hb.
  2:{ exists false, invalid_range_error.
      eapply range_check_unparseable; eauto. }
  apply andb_true_iff in Ht. destruct Ht as [Hf Ht].
  destruct (from_ r) as [f|] eqn:Ef; [|discriminate].
  destruct (to r) as [t|] eqn:Et; [|discriminate].
  exists (a <? b), range_error.
  exact (range_check_parsed config r f t a b Hr Ef Et Ha Hb).
Qed.

Lemma subnet_check_one_line l :
  lan_of config = Some l ->
  exists (b : bool) (msg : string),
    _validate_dhcp_subnet_consistency config
    = (Ok b, Enter "_validate_dhcp_subnet_consistency"
               :: (if b then [] else [Log ERROR msg])).
Proof.
  intros Hl.
  destruct (IPv4Network (lan_subnet_of l)) as [net|e] eqn:Hn.
  2:{ exists true, EmptyString. eapply subnet_check_no_network; eassumption. }
  destruct (dhcpd_lan_range config) as [r|] eqn:Hr.
  2:{ exists true, EmptyString. eapply subnet_check_no_range; eassumption. }
  destruct (truthy (from_ r) && truthy (to r)) eqn:Ht.
  2:{ exists true, EmptyString. eapply subnet_check_endpoint_absent; eassumption. }
  destruct (IPv4Address (str (from_ r))) as [a|e] eqn:Ha.
  2:{ exists true, EmptyString. eapply subnet_check_unparseable; eauto. }
  destruct (IPv4Address (str (to r))) as [b|e] eqn:Hb.
  2:{ exists true, EmptyString. eapply subnet_check_unparseable; eauto. }
  apply andb_true_iff in Ht. destruct Ht as [Hf Ht].
  destruct (from_ r) as [f|] eqn:Ef; [|discriminate].
  destruct (to r) as [t|] eqn:Et; [|discriminate].
  exists (network_contains net a && network_contains net b), subnet_error.
  exact (subnet_check_parsed config l net r f t a b Hl Hn Hr Ef Et Ha Hb).
Qed.

(** Past the first two tests, [validate] answers the conjunction of the
    two checks. *)
Lemma validate_result_of_checks :
  reaches_dhcp_checks config = true ->
  result (validate_pfsense_config config)
  = Ok (passes (_validate_dhcp_range_consistency config)
        && passes (_validate_dhcp_subnet_consistency config)).
Proof.
  intros Hg.
  destruct (validate_gate_open config Hg) as (b1 & m1 & b2 & m2 & H1 & H2 & ->).
  unfold passes. rewrite H1, H2. reflexivity.
Qed.

Lemma reaches_lan :
  reaches_dhcp_checks config = true ->
  exists l, lan_of config = Some l /\ truthy (ipaddr l) = true.
Proof.
  unfold reaches_dhcp_checks. intros H. apply andb_true_iff in H.
  destruct H as [_ H]. destruct (lan_of config) as [l|]; [|discriminate].
  exists l. split; [reflexivity|exact H].
Qed.

End ValidatorFacts.

(** X1. Every rejection by [validate] is explained by exactly one line
    logged at level ERROR; an acceptance logs no such line, and logs the
    success message, which a rejection never does. *)
Theorem validate_logs_one_reason (config : PfSenseConfig) :
  error_lines (trace (validate_pfsense_config config))
  = (if passes (validate_pfsense_config config) then 0%nat else 1%nat)
  /\ logged_info passed_message (trace (validate_pfsense_config config))
     = passes (validate_pfsense_config config).
Proof.
  destruct (reaches_dhcp_checks config) eqn:Hg.
  - destruct (reaches_lan config Hg) as (l & Hl & _).
    destruct (range_check_one_line config) as (b1 & msg1 & H1).
    destruct (subnet_check_one_line config l Hl) as (b2 & msg2 & H2).
    destruct (validate_gate_open config Hg)
      as (b1' & m1 & b2' & m2 & H1' & H2' & Hv).
    rewrite H1 in H1'. rewrite H2 in H2'.
    injection H1' as <- Hm1. injection H2' as <- Hm2.
    unfold passes. rewrite Hv, <- Hm1, <- Hm2. cbn [result trace fst snd].
    destruct b1, b2; split; reflexivity.
  - destruct (validate_gate_closed config Hg) as [msg ->].
    split; reflexivity.
Qed.

(** X2. A configuration that [validate] accepts has a hostname and a LAN
    address; and when both endpoints of its DHCP range are present, they
    parse as IPv4 addresses, [from] is strictly below [to], and both lie
    in the LAN network whenever the LAN address and prefix length form
    one. *)
Theorem validate_true_sound (config : PfSenseConfig) :
  result (validate_pfsense_config config) = Ok true ->
  reaches_dhcp_checks config = true
  /\ forall r,
       dhcpd_lan_range config = Some r ->
       truthy (from_ r) && truthy (to r) = true ->
       exists a b,
         ipaddress.IPv4Address (str (from_ r)) = Ok a
         /\ ipaddress.IPv4Address (str (to r)) = Ok b
         /\ a < b
         /\ forall l ip n p,
              lan_of config = Some l ->
              ipaddr l = Some ip -> subnet l = Some n ->
              ipaddress.IPv4Address ip = Ok p -> 0 <= n <= 32 ->
              in_cidr p n a /\ in_cidr p n b.
Proof.
  intros Hv.
  destruct (reaches_dhcp_checks config) eqn:Hg.
  2:{ rewrite (validate_gate_closed_result config Hg) in Hv. discriminate. }
  split; [reflexivity|].
  rewrite (validate_result_of_checks config Hg) in Hv.
  injection Hv as Hv. apply andb_true_iff in Hv. destruct Hv as [Hrange Hsub].
  intros r Hr Ht.
  destruct (ipaddress.IPv4Address (str (from_ r))) as [a|e] eqn:Ha.
  2:{ unfold passes in Hrange.
      rewrite (range_check_unparseable config r Hr Ht) in Hrange by eauto.
      discriminate. }
  destruct (ipaddress.IPv4Address (str (to r))) as [b|e] eqn:Hb.
  2:{ unfold passes in Hrange.
      rewrite (range_check_unparseable config r Hr Ht) in Hrange by eauto.
      discriminate. }
  exists a, b. split; [reflexivity|]. split; [reflexivity|].
  apply andb_true_iff in Ht. destruct Ht as [Hf Ht].
  destruct (from_ r) as [f|] eqn:Ef; [|discriminate].
  destruct (to r) as [t|] eqn:Et; [|discriminate].
  cbn [str] in Ha, Hb.
  split.
  - unfold passes in Hrange.
    rewrite (range_check_parsed config r f t a b Hr Ef Et Ha Hb) in Hrange.
    cbn [result fst] in Hrange. apply Z.ltb_lt. exact Hrange.
  - intros l ip n p Hl Hip Hn Hp Hrng.
    pose proof (IPv4Network_of_lan l ip n p Hip Hn Hp Hrng) as Hnet.
    unfold passes in Hsub.
    rewrite (subnet_check_parsed config l _ r f t a b Hl Hnet Hr Ef Et Ha Hb)
      in Hsub.
    cbn [result fst] in Hsub. apply andb_true_iff in Hsub.
    destruct Hsub as [Ia Ib].
    pose proof (IPv4Address_range _ _ Hp) as Rp.
    pose proof (IPv4Address_range _ _ Ha) as Ra.
    pose proof (IPv4Address_range _ _ Hb) as Rb.
    split; apply (network_contains_in_cidr p n); assumption.
Qed.

Lemma validate_true_sound_example :
  reaches_dhcp_checks ordered_range_config = true.
Proof.
  exact (proj1 (validate_true_sound ordered_range_config eq_refl)).
Defined.

(** X3. With a hostname and a LAN address, a configuration without a DHCP
    range, or with an endpoint of the range missing or empty, is accepted,
    whatever the LAN address is: [validate] does not require it to be an
    IP address. *)
Theorem validate_accepts_without_range (config : PfSenseConfig) :
  reaches_dhcp_checks config = true ->
  match dhcpd_lan_range config with
  | None => True
  | Some r => truthy (from_ r) && truthy (to r) = false
  end ->
  result (validate_pfsense_config config) = Ok true.
Proof.
  intros Hg Hr.
  rewrite (validate_result_of_checks config Hg).
  destruct (reaches_lan config Hg) as (l & Hl & _).
  unfold passes.
  destruct (dhcpd_lan_range config) as [r|] eqn:Er.
  - rewrite (range_check_endpoint_absent config r Er Hr).
    destruct (ipaddress.IPv4Network (lan_subnet_of l)) as [net|e] eqn:Hn.
    + rewrite (subnet_check_endpoint_absent config l net r Hl Hn Er Hr).
      reflexivity.
    + rewrite (subnet_check_no_network config l e Hl Hn). reflexivity.
  - rewrite (range_check_no_range config Er).
    destruct (ipaddress.IPv4Network (lan_subnet_of l)) as [net|e] eqn:Hn.
    + rewrite (subnet_check_no_range config l net Hl Hn Er). reflexivity.
    + rewrite (subnet_check_no_network config l e Hl Hn). reflexivity.
Qed.

Lemma validate_accepts_without_range_example :
  result (validate_pfsense_config dhcp_client_config) = Ok true.
Proof.
  exact (validate_accepts_without_range dhcp_client_config eq_refl I).
Defined.

(** X4. Called on its own on a document without a LAN interface, the
    subnet check raises [AttributeError]: the attribute access sits in a
    [try] that catches [ValueError] only. [validate] turns the same
    document into [False]. *)
Theorem subnet_check_raises_without_lan (config : PfSenseConfig) :
  lan_of config = None ->
  (exists e, result (_validate_dhcp_subnet_consistency config) = Raise e
             /\ exn_cls e = AttributeError)
  /\ result (validate_pfsense_config config) = Ok false.
Proof.
  intros Hl. split.
  - destruct (subnet_check_no_lan config Hl) as (e & -> & Hc).
    exists e. split; [reflexivity|exact Hc].
  - apply validate_gate_closed_result. unfold reaches_dhcp_checks.
    rewrite Hl. apply andb_false_r.
Qed.

Lemma subnet_check_raises_without_lan_example :
  (exists e, result (_validate_dhcp_subnet_consistency no_lan_config) = Raise e
             /\ exn_cls e = AttributeError)
  /\ result (validate_pfsense_config no_lan_config) = Ok false.
Proof.
  exact (subnet_check_raises_without_lan no_lan_config eq_refl).
Defined.

(** ** The string handed to [IPv4Network] *)

Section LanSubnetString.

Import ipaddress.

Lemma split_nonempty sep s : exists hd tl, split sep s = hd :: tl.
Proof.
  induction s as [|c s IH]; cbn [split].
  - eexists _, _. reflexivity.
  - destruct (Ascii.eqb c sep); [eexists _, _; reflexivity|].
    destruct IH as (hd & tl & ->). eexists _, _. reflexivity.
Qed.

Lemma split_no_sep sep s : contains sep s = false -> split sep s = [s].
Proof.
  induction s as [|c s IH]; cbn [contains split]; intros H; [reflexivity|].
  apply orb_false_iff in H. destruct H as [Hc Hs].
  rewrite Ascii.eqb_sym, Hc, (IH Hs). reflexivity.
Qed.

Lemma split_with_sep sep s :
  contains sep s = true -> (2 <= List.length (split sep s))%nat.
Proof.
  induction s as [|c s IH]; cbn [contains split]; intros H; [discriminate|].
  rewrite Ascii.eqb_sym in H. destruct (Ascii.eqb c sep); cbn [orb] in H.
  - destruct (split_nonempty sep s) as (hd & tl & ->). cbn. lia.
  - specialize (IH H). destruct (split sep s) as [|hd tl]; cbn in *; lia.
Qed.

(** Splitting distributes over a separator in the middle. *)
Lemma split_middle sep s d :
  split sep (s ++ String sep d) = (split sep s ++ split sep d)%list.
Proof.
  induction s as [|c s IH]; cbn [append split].
  - rewrite Ascii.eqb_refl. reflexivity.
  - destruct (Ascii.eqb c sep).
    + rewrite IH. reflexivity.
    + rewrite IH. destruct (split_nonempty sep s) as (hd & tl & ->).
      reflexivity.
Qed.

(** [IPv4Network] on an address, a slash and a mask without slash. *)
Lemma IPv4Network_of_parts ip d :
  contains "/" d = false ->
  IPv4Network (ip ++ "/" ++ d)
  = if contains "/" ip then Raise (address_error "Only one '/' permitted")
    else
      res_bind (IPv4Address ip) (fun packed =>
      res_bind (_make_netmask d) (fun '(nm, p) =>
      Ok (mkNetwork (Z.land packed nm) nm p))).
Proof.
  intros Hd. unfold IPv4Network, _split_optional_netmask.
  change (ip ++ "/" ++ d) with (ip ++ String "/" d).
  rewrite split_middle, (split_no_sep _ _ Hd).
  destruct (contains "/" ip) eqn:Hip.
  - pose proof (split_with_sep _ _ Hip) as Hlen.
    rewrite length_app. cbn [List.length].
    replace (2 <? List.length (split "/" ip) + 1)%nat with true
      by (symmetry; apply Nat.ltb_lt; lia).
    reflexivity.
  - rewrite (split_no_sep _ _ Hip). reflexivity.
Qed.

(** *** Printing a prefix length and reading it back *)

Lemma int_of_digits_acc d : forall acc,
  int_of_digits (Z.pos acc) (NilEmpty.string_of_uint d)
  = Z.pos (Pos.of_uint_acc d acc).
Proof.
  induction d; intros acc; cbn [NilEmpty.string_of_uint int_of_digits Pos.of_uint_acc];
    [reflexivity|..]; rewrite <- IHd; f_equal;
    match goal with
    | |- context [nat_of_ascii ?c] =>
        let v := eval vm_compute in (Z.of_nat (nat_of_ascii c)) in
        change (Z.of_nat (nat_of_ascii c)) with v
    end; lia.
Qed.

Lemma int_of_digits_uint d :
  int_of_digits 0 (NilEmpty.string_of_uint d) = Z.of_N (Pos.of_uint d).
Proof.
  induction d; cbn [NilEmpty.string_of_uint int_of_digits Pos.of_uint];
    [reflexivity|exact IHd|..];
    cbn [Z.of_N]; rewrite <- int_of_digits_acc; f_equal.
Qed.

Lemma all_digits_uint d : all_digits (NilEmpty.string_of_uint d) = true.
Proof. induction d; cbn; auto. Qed.

Lemma contains_digits c s :
  is_ascii_digit c = false -> all_digits s = true -> contains c s = false.
Proof.
  intros Hc. induction s as [|a s IH]; cbn [all_digits contains]; intros H;
    [reflexivity|].
  apply andb_true_iff in H. destruct H as [Ha Hs]. rewrite (IH Hs), orb_false_r.
  apply Ascii.eqb_neq. intros ->. congruence.
Qed.

(** The decimal form of a positive number. *)
Lemma str_int_pos p :
  str_int (Some (Z.pos p)) = NilEmpty.string_of_uint (Pos.to_uint p)
  /\ str_int (Some (Z.neg p))
     = String "-" (NilEmpty.string_of_uint (Pos.to_uint p))
  /\ NilEmpty.string_of_uint (Pos.to_uint p) <> EmptyString.
Proof.
  pose proof (DecimalPos.Unsigned.to_uint_nonnil p) as Hn.
  unfold str_int. cbn [Z.to_int NilZero.string_of_int NilZero.string_of_uint].
  destruct (Pos.to_uint p); try congruence; repeat split; discriminate.
Qed.

(** The printed prefix length holds neither a slash nor a dot. *)
Lemma str_int_no_sep z c :
  is_ascii_digit c = false -> c <> "-"%char -> c <> "N"%char ->
  c <> "o"%char -> c <> "n"%char -> c <> "e"%char ->
  contains c (str_int z) = false.
Proof.
  intros Hc Hm HN Ho Hn He. destruct z as [[|p|p]|].
  - cbn. rewrite orb_false_r. apply Ascii.eqb_neq. intros ->. discriminate.
  - destruct (str_int_pos p) as (-> & _ & _).
    apply contains_digits; [exact Hc|apply all_digits_uint].
  - destruct (str_int_pos p) as (_ & -> & _). cbn [contains].
    rewrite (contains_digits c _ Hc (all_digits_uint _)), orb_false_r.
    apply Ascii.eqb_neq. exact Hm.
  - cbn. repeat (apply orb_false_iff; split);
      try (apply Ascii.eqb_neq; assumption). reflexivity.
Qed.

(** [_make_netmask] accepts the printed prefix length exactly when it is
    between 0 and 32. *)
Lemma _make_netmask_str_int n :
  _make_netmask (str_int (Some n))
  = if (0 <=? n) && (n <=? 32) then Ok (_ip_int_from_prefix n, n)
    else Raise (netmask_error "is not a valid netmask").
Proof.
  assert (Hdot : contains "." (str_int (Some n)) = false)
    by (apply str_int_no_sep; [reflexivity|discriminate..]).
  assert (Hip : forall s, s <> EmptyString -> contains "." s = false ->
                 _prefix_from_ip_string s
                 = Raise (netmask_error "is not a valid netmask")).
  { intros s Hs Hc. unfold _prefix_from_ip_string, _ip_int_from_string.
    destruct s; [congruence|]. rewrite (split_no_sep _ _ Hc). reflexivity. }
  unfold _make_netmask, _prefix_from_prefix_string.
  destruct n as [|p|p].
  - reflexivity.
  - destruct (str_int_pos p) as (E & _ & Hne). rewrite E in *.
    assert (Hd : isascii_isdigit (NilEmpty.string_of_uint (Pos.to_uint p)) = true).
    { unfold isascii_isdigit.
      destruct (NilEmpty.string_of_uint (Pos.to_uint p)) eqn:Es; [congruence|].
      rewrite <- Es. apply all_digits_uint. }
    rewrite Hd, int_of_digits_uint, DecimalPos.Unsigned.of_to.
    cbn [negb Z.of_N]. unfold max_prefixlen.
    destruct ((0 <=? Z.pos p) && (Z.pos p <=? 32)); cbn [negb res_bind];
      [reflexivity|].
    rewrite (Hip _ Hne Hdot). reflexivity.
  - destruct (str_int_pos p) as (_ & E & _). rewrite E in *.
    set (s := NilEmpty.string_of_uint (Pos.to_uint p)) in *.
    assert (Hd : isascii_isdigit (String "-" s) = false) by reflexivity.
    assert (Hne : String "-" s <> EmptyString) by discriminate.
    rewrite Hd. cbn [negb]. rewrite (Hip _ Hne Hdot). reflexivity.
Qed.

(** The network of a LAN interface, in every case. *)
Lemma IPv4Network_of_lan_cases l :
  IPv4Network (lan_subnet_of l)
  = if contains "/" (str (ipaddr l)) then
      Raise (address_error "Only one '/' permitted")
    else
      res_bind (IPv4Address (str (ipaddr l))) (fun packed =>
      res_bind (_make_netmask (str_int (subnet l))) (fun '(nm, p) =>
      Ok (mkNetwork (Z.land packed nm) nm p))).
Proof.
  unfold lan_subnet_of. apply IPv4Network_of_parts.
  apply str_int_no_sep; [reflexivity|discriminate..].
Qed.

End LanSubnetString.

(** When no network can be formed from the LAN interface, the subnet check
    passes and [validate] rests on the range check alone. *)
Lemma subnet_check_skipped (config : PfSenseConfig) (l : LanInterface) (e : exn) :
  lan_of config = Some l ->
  ipaddress.IPv4Network (lan_subnet_of l) = Raise e ->
  result (_validate_dhcp_subnet_consistency config) = Ok true
  /\ result (validate_pfsense_config config)
     = Ok (reaches_dhcp_checks config
           && passes (_validate_dhcp_range_consistency config)).
Proof.
  intros Hl Hn.
  pose proof (subnet_check_no_network config l e Hl Hn) as Hs.
  split; [rewrite Hs; reflexivity|].
  destruct (reaches_dhcp_checks config) eqn:Hg.
  - rewrite (validate_result_of_checks config Hg). unfold passes at 2.
    rewrite Hs. cbn [result fst]. rewrite andb_true_r. reflexivity.
  - apply validate_gate_closed_result; exact Hg.
Qed.

(** X5. When the LAN address is not an IPv4 address (a sentinel such as
    "dhcp"), the subnet check is skipped, whatever the DHCP range: it
    passes, and [validate] accepts exactly when the hostname and the LAN
    address are present and the range check passes. *)
Theorem lan_sentinel_skips_subnet_check
    (config : PfSenseConfig) (l : LanInterface) (e : exn) :
  lan_of config = Some l ->
  ipaddress.IPv4Address (str (ipaddr l)) = Raise e ->
  result (_validate_dhcp_subnet_consistency config) = Ok true
  /\ result (validate_pfsense_config config)
     = Ok (reaches_dhcp_checks config
           && passes (_validate_dhcp_range_consistency config)).
Proof.
  intros Hl He.
  pose proof (IPv4Network_of_lan_cases l) as Hn. rewrite He in Hn.
  destruct (ipaddress.contains "/" (str (ipaddr l)));
    exact (subnet_check_skipped config l _ Hl Hn).
Qed.

Lemma lan_sentinel_example :
  result (_validate_dhcp_subnet_consistency sentinel_lan_config) = Ok true
  /\ result (validate_pfsense_config sentinel_lan_config) = Ok true.
Proof.
  exact (lan_sentinel_skips_subnet_check sentinel_lan_config
           (mkLanInterface (Some "dhcp") (Some 24))
           (ipaddress.address_error "Expected 4 octets") eq_refl eq_refl).
Defined.

(** X6. A LAN prefix length that is missing or outside 0..32 disables the
    subnet check: no network is formed, the check passes whatever the DHCP
    range, and [validate] rests on the range check alone. *)
Theorem prefix_out_of_range_skips_subnet_check
    (config : PfSenseConfig) (l : LanInterface) :
  lan_of config = Some l ->
  match subnet l with
  | Some n => n < 0 \/ 32 < n
  | None => True
  end ->
  result (_validate_dhcp_subnet_consistency config) = Ok true
  /\ result (validate_pfsense_config config)
     = Ok (reaches_dhcp_checks config
           && passes (_validate_dhcp_range_consistency config)).
Proof.
  intros Hl Hn.
  assert (Hm : exists e, ipaddress._make_netmask (str_int (subnet l)) = Raise e).
  { destruct (subnet l) as [n|].
    - rewrite _make_netmask_str_int.
      replace ((0 <=? n) && (n <=? 32)) with false; [eexists; reflexivity|].
      symmetry. apply andb_false_iff.
      destruct Hn; [left; apply Z.leb_gt|right; apply Z.leb_gt]; assumption.
    - eexists. reflexivity. }
  destruct Hm as [e Hm].
  pose proof (IPv4Network_of_lan_cases l) as Hnet. rewrite Hm in Hnet.
  destruct (ipaddress.contains "/" (str (ipaddr l))).
  - exact (subnet_check_skipped config l _ Hl Hnet).
  - destruct (ipaddress.IPv4Address (str (ipaddr l)));
      exact (subnet_check_skipped config l _ Hl Hnet).
Qed.

Lemma prefix_out_of_range_example :
  result (_validate_dhcp_subnet_consistency long_prefix_config) = Ok true
  /\ result (validate_pfsense_config long_prefix_config) = Ok true.
Proof.
  apply (prefix_out_of_range_skips_subnet_check long_prefix_config
           (mkLanInterface (Some "192.168.1.1") (Some 33)) eq_refl).
  right. reflexivity.
Defined.

(** The subnet check against [in_cidr], for a formed network and two
    parseable endpoints. *)
Lemma subnet_check_in_cidr
    (config : PfSenseConfig) (l : LanInterface) (ip : string) (n p : Z)
    (r : DhcpRange) (f t : string) (a b : Z) :
  lan_of config = Some l ->
  ipaddr l = Some ip -> subnet l = Some n ->
  ipaddress.IPv4Address ip = Ok p -> 0 <= n <= 32 ->
  dhcpd_lan_range config = Some r ->
  from_ r = Some f -> to r = Some t ->
  ipaddress.IPv4Address f = Ok a -> ipaddress.IPv4Address t = Ok b ->
  exists inside : bool,
    result (_validate_dhcp_subnet_consistency config) = Ok inside
    /\ (inside = true <-> in_cidr p n a /\ in_cidr p n b).
Proof.
  intros Hl Hip Hsub Hp Hn Hr Hf Ht Ha Hb.
  pose proof (IPv4Network_of_lan l ip n p Hip Hsub Hp Hn) as Hnet.
  pose proof (subnet_check_parsed config l _ r f t a b Hl Hnet Hr Hf Ht Ha Hb)
    as H. cbv zeta in H.
  eexists. split; [rewrite H; reflexivity|].
  pose proof (IPv4Address_range _ _ Hp) as Rp.
  pose proof (IPv4Address_range _ _ Ha) as Ra.
  pose proof (IPv4Address_range _ _ Hb) as Rb.
  rewrite andb_true_iff, !(network_contains_in_cidr p n) by assumption.
  reflexivity.
Qed.

(** X7. With a LAN prefix length of 32 the network holds the LAN address
    alone, so no DHCP range with two parseable endpoints is accepted:
    either [from] is not below [to], or one of them is outside. *)
Theorem host_prefix_rejects_every_range
    (config : PfSenseConfig) (l : LanInterface) (ip : string) (p : Z)
    (r : DhcpRange) (f t : string) (a b : Z) :
  lan_of config = Some l ->
  ipaddr l = Some ip -> subnet l = Some 32 ->
  ipaddress.IPv4Address ip = Ok p ->
  dhcpd_lan_range config = Some r ->
  from_ r = Some f -> to r = Some t ->
  ipaddress.IPv4Address f = Ok a -> ipaddress.IPv4Address t = Ok b ->
  result (validate_pfsense_config config) = Ok false.
Proof.
  intros Hl Hip Hn Hp Hr Hf Ht Ha Hb.
  destruct (Z.ltb_spec a b) as [Hlt|Hge].
  - assert (Hout : ~ in_cidr p 32 a \/ ~ in_cidr p 32 b).
    { unfold in_cidr. change (2 ^ (32 - 32)) with 1. rewrite !Z.div_1_r. lia. }
    destruct (subnet_check_in_cidr config l ip 32 p r f t a b
                Hl Hip Hn Hp ltac:(lia) Hr Hf Ht Ha Hb) as (inside & Hs & Hi).
    apply validate_false_of_check. right. rewrite Hs. f_equal.
    destruct inside; [|reflexivity].
    destruct (proj1 Hi eq_refl) as [Ia Ib]. tauto.
  - apply validate_false_of_check. left.
    rewrite (range_check_parsed config r f t a b Hr Hf Ht Ha Hb).
    cbn [result fst]. f_equal. apply Z.ltb_ge. exact Hge.
Qed.

Lemma host_prefix_example :
  result (validate_pfsense_config host_prefix_config) = Ok false.
Proof.
  exact (host_prefix_rejects_every_range host_prefix_config
           (mkLanInterface (Some "192.168.1.1") (Some 32)) "192.168.1.1"
           3232235777
           (mkDhcpRange (Some "192.168.1.1") (Some "192.168.1.2"))
           "192.168.1.1" "192.168.1.2" 3232235777 3232235778
           eq_refl eq_refl eq_refl eq_refl eq_refl eq_refl eq_refl
           eq_refl eq_refl).
Defined.

(** X8. With a LAN prefix length of 0 the network holds every address:
    the subnet check passes for any two parseable endpoints, and
    [validate] accepts exactly when the hostname and the LAN address are
    present and [from] is below [to]. *)
Theorem zero_prefix_accepts_every_ordered_range
    (config : PfSenseConfig) (l : LanInterface) (ip : string) (p : Z)
    (r : DhcpRange) (f t : string) (a b : Z) :
  lan_of config = Some l ->
  ipaddr l = Some ip -> subnet l = Some 0 ->
  ipaddress.IPv4Address ip = Ok p ->
  dhcpd_lan_range config = Some r ->
  from_ r = Some f -> to r = Some t ->
  ipaddress.IPv4Address f = Ok a -> ipaddress.IPv4Address t = Ok b ->
  result (_validate_dhcp_subnet_consistency config) = Ok true
  /\ result (validate_pfsense_config config)
     = Ok (reaches_dhcp_checks config && (a <? b)).
Proof.
  intros Hl Hip Hn Hp Hr Hf Ht Ha Hb.
  destruct (subnet_check_in_cidr config l ip 0 p r f t a b
              Hl Hip Hn Hp ltac:(lia) Hr Hf Ht Ha Hb) as (inside & Hs & Hi).
  pose proof (IPv4Address_range _ _ Hp) as Rp.
  pose proof (IPv4Address_range _ _ Ha) as Ra.
  pose proof (IPv4Address_range _ _ Hb) as Rb.
  assert (Hin : inside = true).
  { apply Hi. unfold in_cidr. change (32 - 0) with 32.
    rewrite !Z.div_small by lia. split; reflexivity. }
  subst inside. split; [exact Hs|].
  destruct (reaches_dhcp_checks config) eqn:Hg.
  - rewrite (validate_result_of_checks config Hg). unfold passes.
    rewrite Hs, (range_check_parsed config r f t a b Hr Hf Ht Ha Hb).
    cbn [result fst]. rewrite andb_true_r. reflexivity.
  - apply validate_gate_closed_result; exact Hg.
Qed.

Lemma zero_prefix_example :
  result (_validate_dhcp_subnet_consistency zero_prefix_config) = Ok true
  /\ result (validate_pfsense_config zero_prefix_config) = Ok true.
Proof.
  exact (zero_prefix_accepts_every_ordered_range zero_prefix_config
           (mkLanInterface (Some "192.168.1.1") (Some 0)) "192.168.1.1"
           3232235777
           (mkDhcpRange (Some "10.0.0.5") (Some "172.16.0.9"))
           "10.0.0.5" "172.16.0.9" 167772165 2886729737
           eq_refl eq_refl eq_refl eq_refl eq_refl eq_refl eq_refl
           eq_refl eq_refl).
Defined.

(** X9. The hostname is tested first and the LAN address second: with an
    empty or missing hostname the only line logged names the hostname,
    whatever else the document lacks; with a hostname and an empty or
    missing LAN address the only line logged names the LAN address. Neither
    DHCP check is then evaluated. *)
Theorem required_fields_reported_in_order
    (config : PfSenseConfig) (s : System) :
  system config = Some s ->
  match lan_of config with
  | Some l => truthy (hostname s) && truthy (ipaddr l) = false
  | None => truthy (hostname s) = false
  end ->
  validate_pfsense_config config
  = (Ok false,
     [Log ERROR (if truthy (hostname s) then lan_ipaddr_error
                 else hostname_error)]).
Proof.
  intros Hs H. unfold validate_pfsense_config. rewrite Hs.
  cbn [getattr]. rewrite bind_ret.
  destruct (truthy (hostname s)); [|reflexivity].
  destruct (lan_of config) as [l|] eqn:Hl; [|discriminate].
  cbn [andb negb] in H |- *.
  rewrite (interfaces_lan_attr_Some config l ipaddr "ipaddr" Hl), bind_ret, H.
  reflexivity.
Qed.

Lemma required_fields_example :
  validate_pfsense_config no_hostname_config
  = (Ok false, [Log ERROR hostname_error]).
Proof.
  exact (required_fields_reported_in_order no_hostname_config
           (mkSystem (Some EmptyString)) eq_refl eq_refl).
Defined.

(** * Further properties of the transport *)

Section TransportFacts.

Variable settings : Settings.
Variable world : World.
Variable encode : PfSenseConfig -> res string.
Variable decode : string -> res PfSenseConfig.

Local Opaque append.

(** ** The trace of [connect] *)

(** Whatever happens, the calls of [connect] are the first ones of
    [connect_calls], followed by at most a log line. *)
Lemma connect_trace_shape :
  exists (k : nat) (logs : list string),
    trace (connect settings world)
    = (firstn k (connect_calls settings) ++ map (Log ERROR) logs)%list.
Proof.
  unfold connect, connect_calls.
  destruct (truthy (PFSENSE_KEY_FILE settings)); cbn [app].
  - rewrite bind_invoke.
    destruct (run world (RSAKey_from_private_key_file _)) eqn:E1.
    { rewrite bind_raise'. unfold try_except.
      destruct (isinstance e AuthenticationException);
        [|destruct (isinstance e SSHException)];
        [exists 1%nat, ["Authentication failed when connecting to pfSense: %s"]
        |exists 1%nat, ["SSH connection failed: %s"]
        |exists 1%nat, []]; reflexivity. }
    rewrite invoke_eq.
    destruct (run world (connect_pkey _ _ _ _)) eqn:E2.
    { unfold prefix. cbn [result trace fst snd app]. rewrite bind_raise'.
      unfold try_except.
      destruct (isinstance e AuthenticationException);
        [|destruct (isinstance e SSHException)];
        [exists 2%nat, ["Authentication failed when connecting to pfSense: %s"]
        |exists 2%nat, ["SSH connection failed: %s"]
        |exists 2%nat, []]; reflexivity. }
    unfold prefix. cbn [result trace fst snd app]. rewrite bind_Ok, invoke_eq.
    destruct (run world (connect_password _ _ _ _)) eqn:E3.
    { unfold prefix, try_except. cbn [result trace fst snd app].
      destruct (isinstance e AuthenticationException);
        [|destruct (isinstance e SSHException)];
        [exists 3%nat, ["Authentication failed when connecting to pfSense: %s"]
        |exists 3%nat, ["SSH connection failed: %s"]
        |exists 3%nat, []]; reflexivity. }
    exists 3%nat, []. reflexivity.
  - rewrite bind_ret, invoke_eq.
    destruct (run world (connect_password _ _ _ _)) eqn:E3.
    { unfold try_except.
      destruct (isinstance e AuthenticationException);
        [|destruct (isinstance e SSHException)];
        [exists 1%nat, ["Authentication failed when connecting to pfSense: %s"]
        |exists 1%nat, ["SSH connection failed: %s"]
        |exists 1%nat, []]; reflexivity. }
    exists 1%nat, []. reflexivity.
Qed.

Lemma invoked_app c t1 t2 :
  invoked c (t1 ++ t2)%list = invoked c t1 || invoked c t2.
Proof. apply existsb_app. Qed.

Lemma invoked_logs c msgs : invoked c (map (Log ERROR) msgs) = false.
Proof. induction msgs as [|m msgs IH]; [reflexivity|exact IH]. Qed.

Lemma remote_effects_logs msgs : remote_effects (map (Log ERROR) msgs) = [].
Proof. induction msgs as [|m msgs IH]; [reflexivity|exact IH]. Qed.

Lemma invoked_firstn c k t : invoked c t = false -> invoked c (firstn k t) = false.
Proof.
  revert k. induction t as [|ev t IH]; intros k H; destruct k; try reflexivity.
  cbn [firstn invoked existsb] in *. apply orb_false_iff in H.
  destruct H as [H1 H2]. rewrite H1. exact (IH k H2).
Qed.

Lemma remote_effects_firstn k t :
  remote_effects t = [] -> remote_effects (firstn k t) = [].
Proof.
  revert k. induction t as [|ev t IH]; intros k H; destruct k; try reflexivity.
  cbn [firstn remote_effects filter] in *.
  destruct (is_remote_effect ev); [discriminate|]. exact (IH k H).
Qed.

Lemma remote_effects_connect_calls : remote_effects (connect_calls settings) = [].
Proof.
  unfold connect_calls. destruct (truthy (PFSENSE_KEY_FILE settings)); reflexivity.
Qed.

Lemma silent_connect : silent (connect settings world).
Proof.
  unfold silent. destruct connect_trace_shape as (k & logs & ->).
  rewrite remote_effects_app, remote_effects_logs, app_nil_r.
  apply remote_effects_firstn, remote_effects_connect_calls.
Qed.

(** [connect] makes no call but its own three. *)
Lemma never_connect (c : call -> bool) :
  invoked c (connect_calls settings) = false ->
  never c (connect settings world).
Proof.
  intros H. unfold never. destruct connect_trace_shape as (k & logs & ->).
  rewrite invoked_app, invoked_logs, orb_false_r.
  apply invoked_firstn, H.
Qed.

(** ** Composition *)

Lemma trace_bind {A B} (m : M A) (f : A -> M B) :
  trace (bind m f)
  = (trace m ++ match result m with
                | Ok a => trace (f a)
                | Raise _ => []
                end)%list.
Proof.
  destruct m as [[a|e] t]; cbn [result trace fst snd].
  - rewrite bind_Ok. reflexivity.
  - cbn [bind snd]. rewrite app_nil_r. reflexivity.
Qed.

Lemma never_bind c {A B} (m : M A) (f : A -> M B) :
  never c m -> (forall a, never c (f a)) -> never c (bind m f).
Proof.
  unfold never. intros Hm Hf. rewrite trace_bind, invoked_app, Hm.
  destruct (result m); [apply Hf|reflexivity].
Qed.

Lemma never_invoke c k : c k = false -> never c (invoke world k).
Proof.
  intros H. unfold never. rewrite invoke_eq.
  destruct (run world k); cbn [trace snd invoked existsb]; rewrite H; reflexivity.
Qed.

Lemma never_with_exit c {A} (body : M A) (ex : M unit) :
  never c body -> never c ex -> never c (with_exit body ex).
Proof.
  unfold never, with_exit. intros Hb He.
  destruct body as [[a|e] t]; destruct ex as [r t'];
    cbn [trace snd] in *; rewrite invoked_app, Hb, He; reflexivity.
Qed.

Lemma never_no_call c {A} (m : M A) : trace m = [] -> never c m.
Proof. unfold never. intros ->. reflexivity. Qed.

Lemma silent_bind {A B} (m : M A) (f : A -> M B) :
  silent m -> (forall a, silent (f a)) -> silent (bind m f).
Proof.
  unfold silent. intros Hm Hf. rewrite trace_bind, remote_effects_app, Hm.
  destruct (result m); [apply Hf|reflexivity].
Qed.

Lemma silent_invoke k : is_remote_effect (Invoke k) = false -> silent (invoke world k).
Proof.
  intros H. unfold silent. rewrite invoke_eq.
  destruct (run world k); cbn [trace snd remote_effects filter]; rewrite H;
    reflexivity.
Qed.

Lemma silent_with_exit {A} (body : M A) (ex : M unit) :
  silent body -> silent ex -> silent (with_exit body ex).
Proof.
  unfold silent, with_exit. intros Hb He.
  destruct body as [[a|e] t]; destruct ex as [r t'];
    cbn [trace snd] in *; rewrite remote_effects_app, Hb, He; reflexivity.
Qed.

Lemma effects_within_silent steps {A} (m : M A) :
  silent m -> effects_within steps m.
Proof. intros H. exists 0%nat. exact H. Qed.

Lemma effects_within_bind steps {A B} (m : M A) (f : A -> M B) :
  silent m -> (forall a, result m = Ok a -> effects_within steps (f a)) ->
  effects_within steps (bind m f).
Proof.
  unfold silent, effects_within. intros Hm Hf.
  rewrite trace_bind, remote_effects_app, Hm.
  destruct (result m) as [a|e]; [exact (Hf a eq_refl)|exists 0%nat; reflexivity].
Qed.

(** A step that acts on the device: whether it returns or raises, it has
    been attempted, and the rest follows only when it returned. *)
Lemma effects_within_step k steps {B} (f : unit -> M B) :
  is_remote_effect (Invoke k) = true ->
  effects_within steps (f tt) ->
  effects_within (Invoke k :: steps) (bind (invoke world k) f).
Proof.
  unfold effects_within. intros Hk [n Hn]. rewrite bind_invoke.
  destruct (run world k).
  - exists 1%nat. cbn [trace snd remote_effects filter firstn]. rewrite Hk.
    destruct steps; reflexivity.
  - exists (S n). rewrite trace_prefix. cbn [app remote_effects filter firstn].
    rewrite Hk. fold (remote_effects (trace (f tt))). rewrite Hn. reflexivity.
Qed.

(** ** The steps of a push and of a fetch *)

Lemma with_exit_result_inv {A} (body : M A) (ex : M unit) (v : A) :
  result (with_exit body ex) = Ok v -> result body = Ok v.
Proof.
  unfold with_exit. destruct body as [[a|e] t]; destruct ex as [[u|e'] t'];
    cbn [result fst]; congruence.
Qed.

Lemma push_effects_within config :
  effects_within (push_remote_effects settings (tmpfile_name world))
    (push_pfsense_config settings world encode config).
Proof.
  unfold push_pfsense_config, push_remote_effects. cbv zeta.
  apply effects_within_bind; [apply silent_connect|intros _ _].
  apply effects_within_step; [reflexivity|].
  apply effects_within_bind; [apply silent_invoke; reflexivity|intros _ _].
  apply effects_within_bind; [reflexivity|intros config_xml _].
  apply effects_within_bind; [apply silent_invoke; reflexivity|intros _ _].
  apply effects_within_bind.
  { apply silent_with_exit; [|apply silent_invoke; reflexivity].
    apply silent_bind; [apply silent_invoke; reflexivity|intros _].
    apply silent_bind; [apply silent_invoke; reflexivity|intros _].
    reflexivity. }
  intros local_path Hpath. apply with_exit_result_inv in Hpath.
  assert (Hname : local_path = tmpfile_name world).
  { rewrite !bind_invoke in Hpath.
    destruct (run world (tmpfile_write config_xml)); [discriminate|].
    destruct (run world tmpfile_flush); [discriminate|].
    cbn in Hpath. congruence. }
  subst local_path.
  apply effects_within_step; [reflexivity|].
  apply effects_within_bind; [apply silent_invoke; reflexivity|intros _ _].
  apply effects_within_step; [reflexivity|].
  apply effects_within_step; [reflexivity|].
  apply effects_within_step; [reflexivity|].
  apply effects_within_silent.
  apply silent_bind; [apply silent_invoke; reflexivity|intros _].
  reflexivity.
Qed.

Lemma fetch_effects_within :
  effects_within [Invoke (exec_command ("cat " ++ CONFIG_DIR settings))]
    (fetch_pfsense_config settings world decode).
Proof.
  unfold fetch_pfsense_config.
  apply effects_within_bind; [apply silent_connect|intros _ _].
  apply effects_within_step; [reflexivity|].
  apply effects_within_silent.
  apply silent_bind; [apply silent_invoke; reflexivity|intros _].
  destruct (negb (exit_status world =? 0)).
  - apply silent_bind; [apply silent_invoke; reflexivity|intros _].
    apply silent_bind; [apply silent_invoke; reflexivity|intros _].
    reflexivity.
  - apply silent_bind; [apply silent_invoke; reflexivity|intros _].
    apply silent_bind; [apply silent_invoke; reflexivity|intros _].
    reflexivity.
Qed.

Lemma invoked_connect_calls (c : call -> bool) :
  (forall path, c (RSAKey_from_private_key_file path) = false) ->
  (forall h p u k, c (connect_pkey h p u k) = false) ->
  (forall h p u w, c (connect_password h p u w) = false) ->
  invoked c (connect_calls settings) = false.
Proof.
  intros H1 H2 H3. unfold connect_calls.
  destruct (truthy (PFSENSE_KEY_FILE settings));
    cbn [app invoked existsb]; rewrite ?H1, ?H2, ?H3; reflexivity.
Qed.

Lemma push_never_reads_exit_status config :
  never is_recv_exit_status (push_pfsense_config settings world encode config).
Proof.
  unfold push_pfsense_config. cbv zeta.
  apply never_bind;
    [apply never_connect, invoked_connect_calls; reflexivity|intros _].
  apply never_bind; [apply never_invoke; reflexivity|intros _].
  apply never_bind; [apply never_invoke; reflexivity|intros _].
  apply never_bind; [apply never_no_call; reflexivity|intros config_xml].
  apply never_bind; [apply never_invoke; reflexivity|intros _].
  apply never_bind.
  { apply never_with_exit; [|apply never_invoke; reflexivity].
    apply never_bind; [apply never_invoke; reflexivity|intros _].
    apply never_bind; [apply never_invoke; reflexivity|intros _].
    apply never_no_call; reflexivity. }
  intros local_path.
  do 6 (apply never_bind; [apply never_invoke; reflexivity|intros _]).
  apply never_no_call; reflexivity.
Qed.

(** ** Runs in which the calls return *)

Ltac split_returns H :=
  cbn [no_call_raised forallb app] in H;
  repeat (let R := fresh "R" in
          apply andb_true_iff in H; destruct H as [R H]);
  repeat match goal with
         | R : returns world ?c = true |- _ =>
             unfold returns in R;
             destruct (run world c) eqn:?; [discriminate R|clear R]
         end.

Ltac run_steps :=
  repeat (first [rewrite bind_invoke | rewrite invoke_eq];
          match goal with
          | E : run world ?c = None |- context [run world ?c] => rewrite E
          end).

Lemma connect_returns :
  no_call_raised world (connect_calls settings) = true ->
  connect settings world = (Ok tt, connect_calls settings).
Proof.
  intros H. unfold connect, connect_calls in *.
  destruct (truthy (PFSENSE_KEY_FILE settings)); split_returns H; run_steps.
  - unfold prefix. cbn [result trace fst snd app]. rewrite bind_Ok.
    run_steps. reflexivity.
  - rewrite bind_ret. run_steps. reflexivity.
Qed.

Lemma push_returns config config_xml :
  no_call_raised world
    (connect_calls settings ++ push_calls settings world config_xml) = true ->
  encode config = Ok config_xml ->
  push_pfsense_config settings world encode config
  = (Ok 1, (connect_calls settings
            ++ push_calls settings world config_xml)%list).
Proof.
  intros H Henc. rewrite no_call_raised_app in H.
  apply andb_true_iff in H. destruct H as [Hc Hp].
  unfold push_pfsense_config. cbv zeta.
  rewrite (connect_returns Hc), bind_Ok.
  unfold push_calls in Hp. split_returns Hp.
  rewrite Henc. run_steps. rewrite bind_lift_Ok. run_steps.
  unfold prefix. cbn [result trace fst snd ret with_exit app bind].
  run_steps.
  unfold prefix, push_calls. cbn [result trace fst snd app]. reflexivity.
Qed.

Lemma push_raises_at_encoding config e :
  no_call_raised world
    (connect_calls settings ++ push_calls_before_encoding settings) = true ->
  encode config = Raise e ->
  push_pfsense_config settings world encode config
  = (Raise e, (connect_calls settings
               ++ push_calls_before_encoding settings)%list).
Proof.
  intros H Henc. rewrite no_call_raised_app in H.
  apply andb_true_iff in H. destruct H as [Hc Hp].
  unfold push_pfsense_config. cbv zeta.
  rewrite (connect_returns Hc), bind_Ok.
  unfold push_calls_before_encoding in Hp. split_returns Hp.
  rewrite Henc. run_steps.
  unfold prefix, push_calls_before_encoding.
  cbn [result trace fst snd app bind lift raise]. reflexivity.
Qed.

(** ** Fetch *)

Ltac invert_step H :=
  let a := fresh "a" in
  let t1 := fresh "t" in
  let t2 := fresh "t" in
  let H1 := fresh "Hstep" in
  apply bind_Ok_inv in H;
  destruct H as (a & t1 & t2 & H1 & H & ->);
  first [ apply invoke_Ok_inv in H1; destruct H1 as [-> _]
        | apply connect_Ok_inv in H1; rewrite H1; clear H1 ].

Lemma fetch_returns_inv config t :
  fetch_pfsense_config settings world decode = (Ok config, t) ->
  exit_status world = 0
  /\ decode (stdout_text world) = Ok config
  /\ t = (connect_calls settings ++ fetch_calls settings)%list.
Proof.
  unfold fetch_pfsense_config. intros H.
  invert_step H. invert_step H. invert_step H.
  destruct (exit_status world =? 0) eqn:Hs; cbn [negb] in H.
  - invert_step H. invert_step H.
    apply lift_Ok_inv in H. destruct H as [H ->].
    apply Z.eqb_eq in Hs. repeat split; assumption || reflexivity.
  - invert_step H. invert_step H. discriminate H.
Qed.

Lemma fetch_returns :
  exit_status world = 0 ->
  no_call_raised world (connect_calls settings ++ fetch_calls settings) = true ->
  fetch_pfsense_config settings world decode
  = (decode (stdout_text world),
     (connect_calls settings ++ fetch_calls settings)%list).
Proof.
  intros Hs H. rewrite no_call_raised_app in H.
  apply andb_true_iff in H. destruct H as [Hc Hp].
  unfold fetch_pfsense_config.
  rewrite (connect_returns Hc), bind_Ok, Hs.
  unfold fetch_calls in Hp. split_returns Hp.
  cbn [Z.eqb negb]. run_steps.
  unfold prefix, fetch_calls, lift. cbn [result trace fst snd app]. reflexivity.
Qed.

Lemma fetch_raises_on_status :
  exit_status world <> 0 ->
  no_call_raised world
    (connect_calls settings ++ fetch_failure_calls settings) = true ->
  fetch_pfsense_config settings world decode
  = (Raise (mkExn PfSenseError "Failed to fetch pfSense configuration."),
     (connect_calls settings ++ fetch_failure_calls settings)%list).
Proof.
  intros Hs H. rewrite no_call_raised_app in H.
  apply andb_true_iff in H. destruct H as [Hc Hp].
  unfold fetch_pfsense_config.
  rewrite (connect_returns Hc), bind_Ok.
  apply Z.eqb_neq in Hs. rewrite Hs.
  unfold fetch_failure_calls in Hp. split_returns Hp.
  cbn [negb]. run_steps.
  unfold prefix, fetch_failure_calls, raise.
  cbn [result trace fst snd app]. reflexivity.
Qed.

Lemma fetch_never_reads_stdout_on_status :
  exit_status world <> 0 ->
  never is_stdout_read (fetch_pfsense_config settings world decode).
Proof.
  intros Hs. apply Z.eqb_neq in Hs. unfold fetch_pfsense_config. rewrite Hs.
  cbn [negb].
  apply never_bind;
    [apply never_connect, invoked_connect_calls; reflexivity|intros _].
  do 4 (apply never_bind; [apply never_invoke; reflexivity|intros _]).
  apply never_no_call; reflexivity.
Qed.

(** ** The errors of [connect] *)

Lemma connect_error_not_ssh e : isinstance (connect_error e) SSHException = false.
Proof.
  unfold connect_error.
  destruct (isinstance e AuthenticationException); [reflexivity|].
  destruct (isinstance e SSHException) eqn:H; [reflexivity|exact H].
Qed.

Lemma connect_raises_inv e' :
  result (connect settings world) = Raise e' ->
  exists c e,
    In (Invoke c) (connect_calls settings)
    /\ run world c = Some e
    /\ e' = connect_error e.
Proof.
  unfold connect, connect_calls, connect_error.
  destruct (truthy (PFSENSE_KEY_FILE settings)); cbn [app].
  - rewrite bind_invoke.
    destruct (run world (RSAKey_from_private_key_file _)) eqn:E1.
    { rewrite bind_raise'. unfold try_except. intros H.
      eexists _, e. split; [left; reflexivity|]. split; [exact E1|].
      destruct (isinstance e AuthenticationException);
        [|destruct (isinstance e SSHException)];
        cbn in H; congruence. }
    rewrite invoke_eq.
    destruct (run world (connect_pkey _ _ _ _)) eqn:E2.
    { unfold prefix. cbn [result trace fst snd app]. rewrite bind_raise'.
      unfold try_except. intros H.
      eexists _, e. split; [right; left; reflexivity|]. split; [exact E2|].
      destruct (isinstance e AuthenticationException);
        [|destruct (isinstance e SSHException)];
        cbn in H; congruence. }
    unfold prefix. cbn [result trace fst snd app]. rewrite bind_Ok, invoke_eq.
    destruct (run world (connect_password _ _ _ _)) eqn:E3.
    { unfold prefix, try_except. cbn [result trace fst snd app]. intros H.
      eexists _, e. split; [right; right; left; reflexivity|].
      split; [exact E3|].
      destruct (isinstance e AuthenticationException);
        [|destruct (isinstance e SSHException)];
        cbn in H; congruence. }
    discriminate.
  - rewrite bind_ret, invoke_eq.
    destruct (run world (connect_password _ _ _ _)) eqn:E3.
    { unfold try_except. intros H.
      eexists _, e. split; [left; reflexivity|]. split; [exact E3|].
      destruct (isinstance e AuthenticationException);
        [|destruct (isinstance e SSHException)];
        cbn in H; congruence. }
    discriminate.
Qed.

End TransportFacts.

(** ** The order of the remote steps *)

Section EffectsInOrder.

Variable settings : Settings.
Variable world : World.
Variable encode : PfSenseConfig -> res string.

Local Opaque append.

Lemma effects_in_order_silent steps {A} (m : M A) :
  silent m -> effects_in_order world steps m.
Proof. intros H. exists 0%nat. split; [exact H|reflexivity]. Qed.

Lemma effects_in_order_bind steps {A B} (m : M A) (f : A -> M B) :
  silent m ->
  (forall a, result m = Ok a -> effects_in_order world steps (f a)) ->
  effects_in_order world steps (bind m f).
Proof.
  unfold silent, effects_in_order. intros Hm Hf.
  rewrite trace_bind, remote_effects_app, Hm.
  destruct (result m) as [a|e]; [exact (Hf a eq_refl)|].
  exists 0%nat. split; reflexivity.
Qed.

(** A step that acts on the device: it is attempted, and the rest follows
    only when it has returned. *)
Lemma effects_in_order_step k steps {B} (f : unit -> M B) :
  is_remote_effect (Invoke k) = true ->
  effects_in_order world steps (f tt) ->
  effects_in_order world (Invoke k :: steps) (bind (invoke world k) f).
Proof.
  unfold effects_in_order. intros Hk (n & Hn & Hr). rewrite bind_invoke.
  destruct (run world k) eqn:E.
  - exists 1%nat. cbn [trace snd remote_effects filter firstn pred]. rewrite Hk.
    split; [destruct steps; reflexivity|reflexivity].
  - exists (S n). rewrite trace_prefix. cbn [app remote_effects filter firstn pred].
    rewrite Hk. fold (remote_effects (trace (f tt))). rewrite Hn.
    split; [reflexivity|].
    destruct n as [|n]; [reflexivity|].
    cbn [firstn no_call_raised forallb pred] in *. unfold returns. rewrite E.
    exact Hr.
Qed.

Lemma push_effects_in_order config :
  effects_in_order world (push_remote_effects settings (tmpfile_name world))
    (push_pfsense_config settings world encode config).
Proof.
  unfold push_pfsense_config, push_remote_effects. cbv zeta.
  apply effects_in_order_bind; [apply silent_connect|intros _ _].
  apply effects_in_order_step; [reflexivity|].
  apply effects_in_order_bind; [apply silent_invoke; reflexivity|intros _ _].
  apply effects_in_order_bind; [reflexivity|intros config_xml _].
  apply effects_in_order_bind; [apply silent_invoke; reflexivity|intros _ _].
  apply effects_in_order_bind.
  { apply silent_with_exit; [|apply silent_invoke; reflexivity].
    apply silent_bind; [apply silent_invoke; reflexivity|intros _].
    apply silent_bind; [apply silent_invoke; reflexivity|intros _].
    reflexivity. }
  intros local_path Hpath. apply with_exit_result_inv in Hpath.
  assert (Hname : local_path = tmpfile_name world).
  { rewrite !bind_invoke in Hpath.
    destruct (run world (tmpfile_write config_xml)); [discriminate|].
    destruct (run world tmpfile_flush); [discriminate|].
    cbn in Hpath. congruence. }
  subst local_path.
  apply effects_in_order_step; [reflexivity|].
  apply effects_in_order_bind; [apply silent_invoke; reflexivity|intros _ _].
  apply effects_in_order_step; [reflexivity|].
  apply effects_in_order_step; [reflexivity|].
  apply effects_in_order_step; [reflexivity|].
  apply effects_in_order_silent.
  apply silent_bind; [apply silent_invoke; reflexivity|intros _].
  reflexivity.
Qed.

End EffectsInOrder.

(** X10. However a push ends, the device has seen the first steps of the
    sequence backup copy, upload, move, cache removal, reload, in that
    order and with none left out; and a step is attempted only after the
    steps before it have returned: of the steps attempted, all but the
    last returned. Nothing is undone. *)
Theorem push_partial_failure_keeps_order
    (settings : Settings) (world : World)
    (encode : PfSenseConfig -> res string) (config : PfSenseConfig) :
  exists k : nat,
    remote_effects (trace (push_pfsense_config settings world encode config))
    = firstn k (push_remote_effects settings (tmpfile_name world))
    /\ no_call_raised world
         (firstn (pred k) (push_remote_effects settings (tmpfile_name world)))
       = true.
Proof. exact (push_effects_in_order settings world encode config). Qed.

(** X11. A fetch never changes the device: whatever happens, its only
    remote step is at most the [cat] of the configuration file. *)
Theorem fetch_is_read_only
    (settings : Settings) (world : World)
    (decode : string -> res PfSenseConfig) :
  remote_effects (trace (fetch_pfsense_config settings world decode)) = []
  \/ remote_effects (trace (fetch_pfsense_config settings world decode))
     = [Invoke (exec_command ("cat " ++ CONFIG_DIR settings))].
Proof.
  destruct (fetch_effects_within settings world decode) as [k Hk].
  rewrite Hk. destruct k as [|k]; [left; reflexivity|right].
  destruct k; reflexivity.
Qed.

(** X12. When every call of a push returns and the document can be
    encoded, the push returns 1 after the calls of [connect] and
    [push_calls]: neither the exit status of a remote command nor the
    validity of the document is consulted. *)
Theorem push_succeeds_when_calls_return
    (settings : Settings) (world : World)
    (encode : PfSenseConfig -> res string) (config : PfSenseConfig)
    (config_xml : string) :
  no_call_raised world
    (connect_calls settings ++ push_calls settings world config_xml) = true ->
  encode config = Ok config_xml ->
  push_pfsense_config settings world encode config
  = (Ok 1, (connect_calls settings
            ++ push_calls settings world config_xml)%list).
Proof. exact (push_returns settings world encode config config_xml). Qed.

(** A document that [validate] refuses is pushed all the same, in a world
    where remote commands exit with status 1. *)
Lemma push_succeeds_example :
  result (validate_pfsense_config reversed_range_config) = Ok false
  /\ exit_status world_cat_fails = 1
  /\ result (push_pfsense_config key_settings world_cat_fails sample_encode
               reversed_range_config) = Ok 1.
Proof.
  split; [reflexivity|]. split; [reflexivity|].
  rewrite (push_succeeds_when_calls_return key_settings world_cat_fails
             sample_encode reversed_range_config "<pfsense></pfsense>"
             eq_refl eq_refl).
  reflexivity.
Defined.

(** X13. A push never asks for the exit status of a remote command, so a
    command that failed on the device goes unnoticed. *)
Theorem push_never_reads_an_exit_status
    (settings : Settings) (world : World)
    (encode : PfSenseConfig -> res string) (config : PfSenseConfig) :
  invoked is_recv_exit_status
    (trace (push_pfsense_config settings world encode config)) = false.
Proof. exact (push_never_reads_exit_status settings world encode config). Qed.

(** X14. When the document cannot be encoded, the push raises the
    encoder's exception after the backup copy has been made and the SFTP
    channel opened: nothing is uploaded, and neither the channel nor the
    session is closed. *)
Theorem push_encoding_failure
    (settings : Settings) (world : World)
    (encode : PfSenseConfig -> res string) (config : PfSenseConfig) (e : exn) :
  no_call_raised world
    (connect_calls settings ++ push_calls_before_encoding settings) = true ->
  encode config = Raise e ->
  push_pfsense_config settings world encode config
  = (Raise e, (connect_calls settings
               ++ push_calls_before_encoding settings)%list).
Proof. exact (push_raises_at_encoding settings world encode config e). Qed.

Lemma push_encoding_failure_example :
  push_pfsense_config key_settings world_ok failing_encode ordered_range_config
  = (Raise (mkExn ValueError "cannot serialise"),
     (connect_calls key_settings ++ push_calls_before_encoding key_settings)%list).
Proof.
  exact (push_encoding_failure key_settings world_ok failing_encode
           ordered_range_config (mkExn ValueError "cannot serialise")
           eq_refl eq_refl).
Defined.

(** X15. A fetch that returns a configuration has seen exit status 0, and
    the configuration is the decoding of the remote output; its calls were
    those of [connect], the [cat] command, the status, the read of the
    output and [close]. *)
Theorem fetch_returns_decoded_output
    (settings : Settings) (world : World)
    (decode : string -> res PfSenseConfig) (config : PfSenseConfig) :
  result (fetch_pfsense_config settings world decode) = Ok config ->
  exit_status world = 0
  /\ decode (stdout_text world) = Ok config
  /\ trace (fetch_pfsense_config settings world decode)
     = (connect_calls settings ++ fetch_calls settings)%list.
Proof.
  intros H.
  destruct (fetch_pfsense_config settings world decode) as [r t] eqn:Hf.
  cbn [result fst] in H. subst r.
  exact (fetch_returns_inv settings world decode config t Hf).
Qed.

Lemma fetch_returns_decoded_output_example :
  exit_status world_ok = 0
  /\ sample_decode (stdout_text world_ok) = Ok empty_config
  /\ trace (fetch_pfsense_config key_settings world_ok sample_decode)
     = (connect_calls key_settings ++ fetch_calls key_settings)%list.
Proof.
  exact (fetch_returns_decoded_output key_settings world_ok sample_decode
           empty_config eq_refl).
Defined.

(** X16. When the calls of a fetch return and the exit status is 0, the
    session is closed before the output is decoded, and the fetch ends as
    the decoder does: with its configuration, or with its exception, which
    is not wrapped. *)
Theorem fetch_ends_as_decoder
    (settings : Settings) (world : World)
    (decode : string -> res PfSenseConfig) :
  exit_status world = 0 ->
  no_call_raised world (connect_calls settings ++ fetch_calls settings) = true ->
  fetch_pfsense_config settings world decode
  = (decode (stdout_text world),
     (connect_calls settings ++ fetch_calls settings)%list).
Proof. exact (fetch_returns settings world decode). Qed.

Lemma fetch_ends_as_decoder_example :
  fetch_pfsense_config key_settings world_ok sample_decode
  = (Ok empty_config, (connect_calls key_settings ++ fetch_calls key_settings)%list).
Proof.
  exact (fetch_ends_as_decoder key_settings world_ok sample_decode
           eq_refl eq_refl).
Defined.

(** X17. When the remote command of a fetch exits with a non-zero status,
    the fetch never returns a configuration and never reads the output;
    if its calls return, it reads the error stream, closes the session and
    raises [PfSenseError]. *)
Theorem fetch_fails_on_nonzero_status
    (settings : Settings) (world : World)
    (decode : string -> res PfSenseConfig) :
  exit_status world <> 0 ->
  (forall config,
      result (fetch_pfsense_config settings world decode) <> Ok config)
  /\ invoked is_stdout_read
       (trace (fetch_pfsense_config settings world decode)) = false
  /\ (no_call_raised world
        (connect_calls settings ++ fetch_failure_calls settings) = true ->
      fetch_pfsense_config settings world decode
      = (Raise (mkExn PfSenseError "Failed to fetch pfSense configuration."),
         (connect_calls settings ++ fetch_failure_calls settings)%list)).
Proof.
  intros Hs. split; [|split].
  - intros config H.
    destruct (fetch_pfsense_config settings world decode) as [r t] eqn:Hf.
    cbn [result fst] in H. subst r.
    apply fetch_returns_inv in Hf. destruct Hf as [H0 _]. contradiction.
  - exact (fetch_never_reads_stdout_on_status settings world decode Hs).
  - exact (fetch_raises_on_status settings world decode Hs).
Qed.

Lemma fetch_fails_on_nonzero_status_example :
  fetch_pfsense_config key_settings world_cat_fails sample_decode
  = (Raise (mkExn PfSenseError "Failed to fetch pfSense configuration."),
     (connect_calls key_settings ++ fetch_failure_calls key_settings)%list).
Proof.
  refine (proj2 (proj2 (fetch_fails_on_nonzero_status key_settings
                          world_cat_fails sample_decode _)) eq_refl).
  discriminate.
Defined.

(** X18. [connect] never lets a paramiko [SSHException] out: the exception
    it raises is what the [except] clauses make of the exception of one of
    its calls, a [PfSenseError] for an authentication or SSH failure and
    the exception itself, unwrapped, for any other. *)
Theorem connect_wraps_ssh_exceptions
    (settings : Settings) (world : World) (e' : exn) :
  result (connect settings world) = Raise e' ->
  isinstance e' SSHException = false
  /\ exists c e,
       In (Invoke c) (connect_calls settings)
       /\ run world c = Some e
       /\ e' = connect_error e.
Proof.
  intros H. destruct (connect_raises_inv settings world e' H) as (c & e & Hc & Hr & ->).
  split; [apply connect_error_not_ssh|].
  exists c, e. repeat split; assumption.
Qed.

Lemma connect_wraps_ssh_exceptions_example :
  isinstance (mkExn PfSenseError "Authentication failed") SSHException = false
  /\ exists c e,
       In (Invoke c) (connect_calls key_settings)
       /\ run world_key_refused c = Some e
       /\ mkExn PfSenseError "Authentication failed" = connect_error e.
Proof.
  exact (connect_wraps_ssh_exceptions key_settings world_key_refused
           (mkExn PfSenseError "Authentication failed") eq_refl).
Defined.

(** X19. A server that refuses the password cannot be connected to, even
    with a key that it accepts: when the password attempt would raise,
    [connect] raises. *)
Theorem password_failure_fails_connect
    (settings : Settings) (world : World) (e : exn) :
  run world (connect_password (PFSENSE_HOST settings) (PFSENSE_PORT settings)
               (PFSENSE_USERNAME settings) (PFSENSE_PASSWORD settings))
  = Some e ->
  exists e', result (connect settings world) = Raise e'.
Proof.
  intros He.
  destruct (connect_cases settings world) as [[_ Hn]|(e' & t & -> & _)].
  - exfalso. unfold connect_calls in Hn. rewrite no_call_raised_app in Hn.
    apply andb_true_iff in Hn. destruct Hn as [_ Hn].
    cbn [no_call_raised forallb] in Hn. unfold returns in Hn.
    rewrite He in Hn. discriminate.
  - exists e'. reflexivity.
Qed.

Lemma password_failure_example :
  exists e', result (connect key_settings world_password_refused) = Raise e'.
Proof.
  exact (password_failure_fails_connect key_settings world_password_refused
           (mkExn AuthenticationException "Authentication failed.") eq_refl).
Defined.


